(** * Premium calculator ([app.py]): rate repository and premium aggregation

    A shallow embedding of the two functions of [app.py] that carry logic,
    [load_rates] and [calc_total], together with [unit_to_multiplier].

    Conventions of the embedding.
    - Python [int] is [Z].  Python [float] amounts, rates and premiums are
      idealised as exact rationals in canonical form ([Qc]): rounding,
      infinities and NaN of IEEE doubles are outside this model.  The
      summation routines keep the order of additions of the library
      routines they stand for.  Module [Doubles] holds the same functions
      over binary64 numbers, for what depends on rounding.
    - A raised exception is a value [inl e] of the result type; the
      constructors of [error] are named after the kind of failure and carry
      the data that the Python message interpolates.
    - A pandas [DataFrame] is a list of column labels with a list of typed
      rows.  Selecting a column that is not among the labels raises
      [KeyError], as pandas does. *)

From Stdlib Require Import ZArith QArith Qcanon String List Sorted Permutation.
From Stdlib Require Import Ascii DecimalString.
From Stdlib Require PrimFloat FloatOps SpecFloat.
From stdpp Require Import base decidable option list list_numbers sorting
  numbers strings gmap fin_maps.

Local Open Scope string_scope.
Local Open Scope Z_scope.
Local Open Scope list_scope.

(** ** Errors and the result type *)

Inductive error : Type :=
  (* load_rates *)
  | EncodingError (file : string)
  | ReadError (file : string)
  | SchemaError (missing_cols : list string)
  | AgeCastError
  | DataTypeError
  (* unit_to_multiplier *)
  | UnsupportedUnitError (unit : string)
  (* calc_total *)
  | InvalidRangeError
  | ProductNotFoundError (code sex : string)
  | InconsistentUnitError (code : string) (units : list string)
  | MissingAgeCoverageError (code : string) (missing : list Z)
  (* pandas column selection *)
  | KeyError (key : string)
  (* conversions between Python int and float *)
  | OverflowError
  | NanToIntegerError.

Definition result (A : Type) : Type := (error + A)%type.

Definition ok {A} (a : A) : result A := inr a.
Definition raise {A} (e : error) : result A := inl e.

Definition bind {A B} (c : result A) (k : A -> result B) : result B :=
  match c with
  | inl e => inl e
  | inr a => k a
  end.

Notation "'let?' x ':=' c 'in' k" := (bind c (fun x => k))
  (at level 10, x pattern, c at level 100, k at level 200).

Definition succeeds {A} (c : result A) : Prop := exists a, c = inr a.

(** ** Numbers *)

(** Integers enter float arithmetic through [Qc_of_Z]. *)

(** Python's [int(x)] on a float: truncation towards zero. *)
Definition int_of_Qc (x : Qc) : Z := Z.quot (Qnum x) (Zpos (Qden x)).

(** ** [unit_to_multiplier] *)

Definition unit_to_multiplier (unit : string) (amount : Qc) : result Qc :=
  if String.eqb unit "per_10k" then ok (amount / Qc_of_Z 10000)%Qc
  else if String.eqb unit "per_1k" then ok (amount / Qc_of_Z 1000)%Qc
  else if String.eqb unit "per_1" then ok amount
  else raise (UnsupportedUnitError unit).

(** ** Data model *)

(** A pandas [DataFrame]: its column labels and its rows, in index order. *)
Record DataFrame (R : Type) : Type := mkDataFrame {
  columns : list string;
  rows : list R
}.
Arguments mkDataFrame {R} _ _.
Arguments columns {R} _.
Arguments rows {R} _.

(** [pd.DataFrame()]: no columns, no rows. *)
Definition empty_frame {R} : DataFrame R := mkDataFrame [] [].

(** [df.empty]: some axis has length zero. *)
Definition df_empty {R} (df : DataFrame R) : bool :=
  match columns df, rows df with
  | [], _ | _, [] => true
  | _, _ => false
  end.

(** [df[name]]: the rows when the label exists, [KeyError] otherwise. *)
Definition select {R} (df : DataFrame R) (name : string) : result (list R) :=
  if bool_decide (name ∈ columns df) then ok (rows df)
  else raise (KeyError name).

(** [df.set_index(name)]: the rows when the label exists; the [KeyError]
    of pandas names the missing keys in a sentence. *)
Definition set_index {R} (df : DataFrame R) (name : string) : result (list R) :=
  if bool_decide (name ∈ columns df) then ok (rows df)
  else raise (KeyError ("None of ['" ++ name ++ "'] are in the columns")%string).

(** One row of the rate table returned by [load_rates]. *)
Record RateRecord : Type := mkRate {
  r_product_code : string;
  r_product_name : string;
  r_unit : string;
  r_age : Z;
  r_sex : string;
  r_rate : Qc;
  r_source_file : string
}.

(** One entry of [items]: the dict with keys [product_code],
    [product_name], [amount] and [qty]. *)
Record Item : Type := mkItem {
  i_product_code : string;
  i_product_name : string;
  i_amount : Qc;
  i_qty : Z
}.

(** One dict appended to [rows_year]; the fields follow the keys
    年齡, 商品代碼, 商品名稱, unit, 保額(元), 份數, 每單位費率, 當年保費(元). *)
Record DetailRow : Type := mkDetail {
  d_age : Z;
  d_code : string;
  d_name : string;
  d_unit : string;
  d_amount : Z;
  d_qty : Z;
  d_rate : Qc;
  d_premium : Qc
}.

Definition detail_columns : list string :=
  ["年齡"; "商品代碼"; "商品名稱"; "unit"; "保額(元)"; "份數";
   "每單位費率"; "當年保費(元)"].

(** One row of [df_year_sum]: 年齡, 當年保費(元), 累計(元). *)
Record YearRow : Type := mkYear {
  y_age : Z;
  y_premium : Qc;
  y_cumulative : Qc
}.

Definition year_columns : list string := ["年齡"; "當年保費(元)"; "累計(元)"].

(** Equality is decidable on every type of the model, so that closed
    statements can be settled by evaluation. *)
#[global] Instance error_eq_dec : EqDecision error.
Proof. solve_decision. Defined.
#[global] Instance DataFrame_eq_dec {R} `{EqDecision R} : EqDecision (DataFrame R).
Proof. solve_decision. Defined.
#[global] Instance RateRecord_eq_dec : EqDecision RateRecord.
Proof. solve_decision. Defined.
#[global] Instance Item_eq_dec : EqDecision Item.
Proof. solve_decision. Defined.
#[global] Instance DetailRow_eq_dec : EqDecision DetailRow.
Proof. solve_decision. Defined.
#[global] Instance YearRow_eq_dec : EqDecision YearRow.
Proof. solve_decision. Defined.

(** ** pandas and Python helpers *)

(** [list(range(lo, hi))]. *)
Definition range (lo hi : Z) : list Z := seqZ lo (hi - lo).

(** [Series.unique()]: the distinct values in order of first appearance. *)
Fixpoint unique_aux {A} `{EqDecision A} (seen l : list A) : list A :=
  match l with
  | [] => []
  | x :: l' =>
      if bool_decide (x ∈ seen) then unique_aux seen l'
      else x :: unique_aux (x :: seen) l'
  end.

Definition unique {A} `{EqDecision A} (l : list A) : list A := unique_aux [] l.

(** [Series.to_dict()] on a series indexed by age: the pairs are inserted
    in row order, so a later row overwrites an earlier one with the same
    age. *)
Definition to_dict (kvs : list (Z * Qc)) : gmap Z Qc :=
  foldl (fun m kv => <[kv.1 := kv.2]> m) ∅ kvs.

(** *** Summation routines of numpy and pandas

    The order of the additions of each routine, over any carrier. *)

Section Summation.

Context {A : Type} (zero : A) (add sub : A -> A -> A) (isna : A -> bool).

(** The eight accumulators of the unrolled loop of numpy's pairwise sum. *)
Record lanes : Type := mkLanes {
  r0 : A; r1 : A; r2 : A; r3 : A; r4 : A; r5 : A; r6 : A; r7 : A
}.

(** [for (i = 8; i < n - (n % 8); i += 8) r[j] += a[i + j]]: every full
    group of eight values is added lane by lane; what is left is returned. *)
Fixpoint add_chunks (r : lanes) (l : list A) : lanes * list A :=
  match l with
  | a0 :: a1 :: a2 :: a3 :: a4 :: a5 :: a6 :: a7 :: l' =>
      add_chunks (mkLanes (add (r0 r) a0) (add (r1 r) a1) (add (r2 r) a2)
                          (add (r3 r) a3) (add (r4 r) a4) (add (r5 r) a5)
                          (add (r6 r) a6) (add (r7 r) a7)) l'
  | _ => (r, l)
  end.

(** A block of at most 128 values: fewer than eight are added in turn;
    otherwise the lanes are filled, combined as
    [((r0+r1)+(r2+r3))+((r4+r5)+(r6+r7))], and the values left over are
    added in turn. *)
Definition block_sum (l : list A) : A :=
  match l with
  | a0 :: a1 :: a2 :: a3 :: a4 :: a5 :: a6 :: a7 :: l' =>
      let '(r, rest) := add_chunks (mkLanes a0 a1 a2 a3 a4 a5 a6 a7) l' in
      foldl add
        (add (add (add (r0 r) (r1 r)) (add (r2 r) (r3 r)))
             (add (add (r4 r) (r5 r)) (add (r6 r) (r7 r))))
        rest
  | _ => foldl add zero l
  end.

(** Longer inputs are halved (the first half a multiple of eight) and the
    two sums added.  The fuel bounds the depth of the halving. *)
Fixpoint pairwise_sum_fuel (fuel : nat) (l : list A) : A :=
  match fuel with
  | O => block_sum l
  | S fuel' =>
      if (length l <=? 128)%nat then block_sum l
      else
        let half := (length l / 2)%nat in
        let n2 := (half - half mod 8)%nat in
        add (pairwise_sum_fuel fuel' (take n2 l))
            (pairwise_sum_fuel fuel' (drop n2 l))
  end.

Definition pairwise_sum (l : list A) : A := pairwise_sum_fuel (length l) l.

(** [np.add.reduce]: the pairwise sum added to the identity. *)
Definition add_reduce (l : list A) : A := add zero (pairwise_sum l).

(** One step of the group sum of pandas (Kahan summation that skips
    missing values): the state is the running sum and its compensation. *)
Definition kahan_step (st : A * A) (val : A) : A * A :=
  if isna val then st
  else
    let y := sub val st.2 in
    let t := add st.1 y in
    let c := sub (sub t st.1) y in
    (t, if isna c then zero else c).

Definition kahan_sum (l : list A) : A := (foldl kahan_step (zero, zero) l).1.

End Summation.

(** [Series.sum()]: numpy's sum of the values. *)
Definition sum (l : list Qc) : Qc := add_reduce 0%Qc Qcplus l.

(** The eight accumulators combined. *)
Definition lanes_total (r : lanes (A:=Qc)) : Qc :=
  ((r0 r + r1 r) + (r2 r + r3 r) + ((r4 r + r5 r) + (r6 r + r7 r)))%Qc.

(** The sum of one group of [groupby(...).sum()]; a rational is never
    missing. *)
Definition group_sum (l : list Qc) : Qc :=
  kahan_sum 0%Qc Qcplus Qcminus (fun _ => false) l.

(** [Series.cumsum()]. *)
Fixpoint cumsum_from (acc : Qc) (l : list Qc) : list Qc :=
  match l with
  | [] => []
  | x :: l' => (acc + x)%Qc :: cumsum_from (acc + x)%Qc l'
  end.

Definition cumsum (l : list Qc) : list Qc := cumsum_from 0%Qc l.

(** [pd.DataFrame(rows_year)]: the labels are the keys of the dicts, so a
    frame built from no dict has no column. *)
Definition DataFrame_of_dicts (rows_year : list DetailRow) : DataFrame DetailRow :=
  mkDataFrame (match rows_year with [] => [] | _ => detail_columns end) rows_year.

(** [df.groupby("年齡", as_index=False)["當年保費(元)"].sum()]: one row per
    distinct age, the groups in ascending order of the key, each with the sum
    of the premiums of its rows. *)
Definition group_sums (rs : list DetailRow) : list (Z * Qc) :=
  (fun k => (k, group_sum (d_premium <$> filter (fun r => d_age r = k) rs)))
    <$> merge_sort Z.le (unique (d_age <$> rs)).

Definition groupby_age_sum (df : DataFrame DetailRow) : result (list (Z * Qc)) :=
  let? rs := select df "年齡" in
  let? _ := select df "當年保費(元)" in
  ok (group_sums rs).

(** [.sort_values("年齡")]: ascending order of the age in the first
    component. *)
Definition age_le (x y : Z * Qc) : Prop := x.1 <= y.1.

#[global] Instance age_le_dec : RelDecision age_le :=
  fun x y => Z_le_dec x.1 y.1.

Definition sort_values_age (l : list (Z * Qc)) : list (Z * Qc) :=
  merge_sort age_le l.

(** ** [calc_total] *)

(** The local variables of the loop body, as functions of what they are
    computed from. *)

(** [sub]: the rows of the product for the sex, in table order. *)
Definition sub_of (all_rows : list RateRecord) (code sex : string)
    : list RateRecord :=
  filter (fun r => r_product_code r = code /\ r_sex r = sex) all_rows.

(** [units = sub["unit"].unique().tolist()]. *)
Definition units_of (sub : list RateRecord) : list string :=
  unique (fmap r_unit sub).

(** [multiplier = unit_to_multiplier(unit, amt) * qty]. *)
Definition multiplier_of (unit : string) (amt : Qc) (qty : Z) : result Qc :=
  let? m := unit_to_multiplier unit amt in
  ok (m * Qc_of_Z qty)%Qc.

(** [rate_map = sub.set_index("age")["rate"].to_dict()]. *)
Definition rate_map_of (sub : list RateRecord) : gmap Z Qc :=
  to_dict (fmap (fun r => (r_age r, r_rate r)) sub).

(** [missing = [a for a in ages if a not in rate_map]]. *)
Definition missing_of (rate_map : gmap Z Qc) (ages : list Z) : list Z :=
  filter (fun a => rate_map !! a = None) ages.

(** The dict appended for age [a].  [rate_map[a]] is read after the check
    on [missing], under which the key is present (lemma
    [missing_nil_lookup]); the default is never used. *)
Definition detail_row (item : Item) (unit : string) (multiplier : Qc)
    (rate_map : gmap Z Qc) (a : Z) : DetailRow :=
  let rate := default 0%Qc (rate_map !! a) in
  let premium := (rate * multiplier)%Qc in
  mkDetail a (i_product_code item) (i_product_name item) unit
           (int_of_Qc (i_amount item)) (i_qty item) rate premium.

(** The body of [for item in items]: the rows one item appends to
    [rows_year]. *)
Definition item_rows (rates_df : DataFrame RateRecord) (sex : string)
    (ages : list Z) (item : Item) : result (list DetailRow) :=
  let code := i_product_code item in
  let amt := i_amount item in
  let qty := i_qty item in
  let? all_rows := select rates_df "product_code" in
  let? _ := select rates_df "sex" in
  let sub := sub_of all_rows code sex in
  if bool_decide (sub = []) then raise (ProductNotFoundError code sex) else
  let? _ := select rates_df "unit" in
  let units := units_of sub in
  if bool_decide (length units ≠ 1%nat) then
    raise (InconsistentUnitError code units)
  else
  let unit := hd "" units in
  let? multiplier := multiplier_of unit amt qty in
  let? _ := set_index rates_df "age" in
  let? _ := select rates_df "rate" in
  let rate_map := rate_map_of sub in
  let missing := missing_of rate_map ages in
  if bool_decide (missing ≠ []) then
    raise (MissingAgeCoverageError code missing)
  else
  ok (fmap (detail_row item unit multiplier rate_map) ages).

(** The loop over [items], threading [rows_year]. *)
Fixpoint item_loop (rates_df : DataFrame RateRecord) (sex : string)
    (ages : list Z) (items : list Item) (rows_year : list DetailRow)
    : result (list DetailRow) :=
  match items with
  | [] => ok rows_year
  | item :: items' =>
      let? rs := item_rows rates_df sex ages item in
      item_loop rates_df sex ages items' (rows_year ++ rs)
  end.

Definition target_ages (start_age end_age : Z) (include_end : bool) : list Z :=
  range start_age (end_age + (if include_end then 1 else 0)).

(** The year frame: the sorted groups with the 累計(元) column added. *)
Definition year_rows (year_sum : list (Z * Qc)) : list YearRow :=
  zip_with (fun ap c => mkYear ap.1 ap.2 c) year_sum (cumsum (snd <$> year_sum)).

Definition calc_total (rates_df : DataFrame RateRecord) (items : list Item)
    (sex : string) (start_age end_age : Z) (include_end : bool)
    : result (Qc * DataFrame DetailRow * DataFrame YearRow) :=
  if end_age <? start_age then raise InvalidRangeError else
  let ages := target_ages start_age end_age include_end in
  let? rows_year := item_loop rates_df sex ages items [] in
  let df_detail := DataFrame_of_dicts rows_year in
  let? grouped := groupby_age_sum df_detail in
  let year_sum := sort_values_age grouped in
  let df_year_sum := mkDataFrame year_columns (year_rows year_sum) in
  let total := sum (snd <$> year_sum) in
  ok (total, df_detail, df_year_sum).

(** ** [load_rates] *)

(** The encodings tried in turn by [load_rates]. *)
Inductive encoding : Type := utf_8 | utf_8_sig | cp950 | big5.

Definition encodings : list encoding := [utf_8; utf_8_sig; cp950; big5].

(** Traversal of a list with a fallible function, stopping at the first
    failure. *)
Fixpoint traverse {A B} (f : A -> result B) (l : list A) : result (list B) :=
  match l with
  | [] => ok []
  | x :: l' =>
      let? y := f x in
      let? ys := traverse f l' in
      ok (y :: ys)
  end.

Section LoadRates.

(** What pandas holds in a cell, and the conversions [load_rates] applies
    to it.  [nan] fills the cells of a column a file does not have. *)
Variable cell : Type.
Variable nan : cell.
Variable astype_int : cell -> option Z.
Variable astype_str : cell -> string.
Variable to_numeric : cell -> option Qc.
Variable upper strip : string -> string.

(** A frame as [pd.read_csv] returns it. *)
Record RawFrame : Type := mkRaw {
  raw_columns : list string;
  raw_rows : list (gmap string cell)
}.

Inductive read_outcome : Type :=
  | Parsed (df : RawFrame)
  | UnicodeDecodeError
  | OtherError.

(** The file system and the CSV reader. *)
Variable isdir : string -> bool.
Variable glob_csv : string -> list string.
Variable basename : string -> string.
Variable read_csv : string -> encoding -> read_outcome.

(** The inner [for enc in (...)] loop with its [try]/[except]: [None]
    when every encoding raised [UnicodeDecodeError]. *)
Fixpoint try_encodings (f : string) (encs : list encoding)
    : result (option RawFrame) :=
  match encs with
  | [] => ok None
  | enc :: encs' =>
      match read_csv f enc with
      | Parsed df => ok (Some df)
      | UnicodeDecodeError => try_encodings f encs'
      | OtherError => raise (ReadError (basename f))
      end
  end.

(** A row after [df["source_file"] = ...]. *)
Record TaggedRow : Type := mkTagged {
  cells : gmap string cell;
  source_file : string
}.

(** The labels after [df["source_file"] = ...]: an existing column of that
    name is overwritten where it stands, a new one is added at the end. *)
Definition with_source_file (cols : list string) : list string :=
  if bool_decide ("source_file" ∈ cols) then cols else cols ++ ["source_file"].

Definition read_file (f : string) : result (list string * list TaggedRow) :=
  let? df := try_encodings f encodings in
  match df with
  | None => raise (EncodingError (basename f))
  | Some df =>
      ok (with_source_file (raw_columns df),
          fmap (fun r => mkTagged r (basename f)) (raw_rows df))
  end.

(** [pd.concat(dfs, ignore_index=True)]: the union of the labels in order
    of appearance, and the rows one frame after the other. *)
Definition concat (dfs : list (list string * list TaggedRow))
    : list string * list TaggedRow :=
  (unique (mjoin (fmap fst dfs)), mjoin (fmap snd dfs)).

Definition required : list string :=
  ["product_code"; "product_name"; "unit"; "age"; "sex"; "rate"].

Definition cell_at (r : TaggedRow) (c : string) : cell :=
  default nan (cells r !! c).

Definition load_rates (rates_dir : string) : result (DataFrame RateRecord) :=
  if negb (isdir rates_dir) then ok empty_frame else
  let files := glob_csv rates_dir in
  if bool_decide (files = []) then ok empty_frame else
  let? dfs := traverse read_file files in
  let all_df := concat dfs in
  let missing_cols := filter (fun c => c ∉ all_df.1) required in
  if bool_decide (missing_cols ≠ []) then raise (SchemaError missing_cols) else
  let? ages :=
    traverse (fun r => match astype_int (cell_at r "age") with
                       | Some a => ok a
                       | None => raise AgeCastError
                       end) all_df.2 in
  let? rates :=
    traverse (fun r => match to_numeric (cell_at r "rate") with
                       | Some q => ok q
                       | None => raise DataTypeError
                       end) all_df.2 in
  ok (mkDataFrame all_df.1
        (zip_with (fun r ar =>
                     mkRate (strip (astype_str (cell_at r "product_code")))
                            (strip (astype_str (cell_at r "product_name")))
                            (strip (astype_str (cell_at r "unit")))
                            ar.1
                            (strip (upper (astype_str (cell_at r "sex"))))
                            ar.2
                            (source_file r))
                  all_df.2 (zip ages rates))).

End LoadRates.

(** ** Concrete tables used by the examples *)

Definition rate_columns : list string :=
  ["product_code"; "product_name"; "unit"; "age"; "sex"; "rate"; "source_file"].

(** Product A001 ("TestLife"), per_10k, sex M, ages 16 to 20 at rate 5. *)
Definition A001_rows : list RateRecord :=
  fmap (fun a => mkRate "A001" "TestLife" "per_10k" a "M" (Qc_of_Z 5) "A001.csv")
      (range 16 21).

Definition A001_rates : DataFrame RateRecord := mkDataFrame rate_columns A001_rows.

Definition A001_item : Item := mkItem "A001" "TestLife" (Qc_of_Z 1000000) 1.

(** A second product B002, per_1k, sex M, ages 16 to 20 at rate 2. *)
Definition B002_rows : list RateRecord :=
  fmap (fun a => mkRate "B002" "Rider" "per_1k" a "M" (Qc_of_Z 2) "B002.csv")
      (range 16 21).

Definition two_rates : DataFrame RateRecord :=
  mkDataFrame rate_columns (A001_rows ++ B002_rows).

Definition B002_item : Item := mkItem "B002" "Rider" (Qc_of_Z 100000) 1.

(** Product X with one row per_10k and one row per_1k. *)
Definition X_rates : DataFrame RateRecord :=
  mkDataFrame rate_columns
    [mkRate "X" "Mixed" "per_10k" 16 "M" (Qc_of_Z 5) "X.csv";
     mkRate "X" "Mixed" "per_1k" 17 "M" (Qc_of_Z 5) "X.csv"].

Definition X_item : Item := mkItem "X" "Mixed" (Qc_of_Z 1000000) 1.

(** Product C003 covering ages 16 to 40 only. *)
Definition C003_rates : DataFrame RateRecord :=
  mkDataFrame rate_columns
    (fmap (fun a => mkRate "C003" "Term" "per_10k" a "M" (Qc_of_Z 3) "C003.csv")
         (range 16 41)).

Definition C003_item : Item := mkItem "C003" "Term" (Qc_of_Z 1000000) 1.

(** Product D004 with two rows for (D004, M, 30): rate 10, then rate 20. *)
Definition D004_rates : DataFrame RateRecord :=
  mkDataFrame rate_columns
    [mkRate "D004" "Dup" "per_1" 30 "M" (Qc_of_Z 10) "D004a.csv";
     mkRate "D004" "Dup" "per_1" 30 "M" (Qc_of_Z 20) "D004b.csv"].

Definition D004_item : Item := mkItem "D004" "Dup" (Qc_of_Z 1) 1.

(** Product Z001 whose rows carry a unit outside the three supported. *)
Definition Z001_rates : DataFrame RateRecord :=
  mkDataFrame rate_columns
    [mkRate "Z001" "Odd" "per_100" 16 "M" (Qc_of_Z 5) "Z001.csv"].

Definition Z001_item : Item := mkItem "Z001" "Odd" (Qc_of_Z 1000000) 1.

(** ** [calc_total] over binary64 numbers

    The same functions with the arithmetic of Python floats: IEEE 754
    binary64 with round to nearest even, as the primitive floats compute
    it.  What differs from the exact functions is what rounding, NaN and
    infinities bring: the conversions between int and float can raise, the
    group sum skips NaN and carries its compensation, [cumsum] and [sum]
    skip NaN.  The routines are those of pandas 2 over numpy. *)

Module Doubles.

Import PrimFloat.

Record RateRecord : Type := mkRate {
  r_product_code : string;
  r_product_name : string;
  r_unit : string;
  r_age : Z;
  r_sex : string;
  r_rate : float;
  r_source_file : string
}.

Record Item : Type := mkItem {
  i_product_code : string;
  i_product_name : string;
  i_amount : float;
  i_qty : Z
}.

Record DetailRow : Type := mkDetail {
  d_age : Z;
  d_code : string;
  d_name : string;
  d_unit : string;
  d_amount : Z;
  d_qty : Z;
  d_rate : float;
  d_premium : float
}.

Record YearRow : Type := mkYear {
  y_age : Z;
  y_premium : float;
  y_cumulative : float
}.

(** A Python int as a float operand: the nearest binary64, or
    [OverflowError] when that is beyond the finite range. *)
Definition float_of_Z (n : Z) : result float :=
  let x := FloatOps.SF2Prim
             (SpecFloat.binary_normalize FloatOps.prec FloatOps.emax n 0 false) in
  if is_infinity x then raise OverflowError else ok x.

(** Python's [int(x)] on a float: truncation towards zero; an infinity
    raises [OverflowError] and a NaN [ValueError]. *)
Definition int_of_float (x : float) : result Z :=
  match FloatOps.Prim2SF x with
  | SpecFloat.S754_zero _ => ok 0
  | SpecFloat.S754_infinity _ => raise OverflowError
  | SpecFloat.S754_nan => raise NanToIntegerError
  | SpecFloat.S754_finite s m e =>
      let magnitude :=
        if 0 <=? e then Z.pos m * 2 ^ e else Z.pos m / 2 ^ (- e) in
      ok (if s then - magnitude else magnitude)
  end.

Definition unit_to_multiplier (unit : string) (amount : float) : result float :=
  if String.eqb unit "per_10k" then ok (amount / 10000)%float
  else if String.eqb unit "per_1k" then ok (amount / 1000)%float
  else if String.eqb unit "per_1" then ok amount
  else raise (UnsupportedUnitError unit).

(** [Series.to_dict()]: a later row overwrites an earlier one. *)
Definition to_dict (kvs : list (Z * float)) : gmap Z float :=
  foldl (fun m kv => <[kv.1 := kv.2]> m) ∅ kvs.

(** A missing value read as zero, as [sum] and [cumsum] do. *)
Definition fill_zero (x : float) : float := if is_nan x then 0%float else x.

(** [Series.sum()]: numpy's sum of the values, NaN read as zero. *)
Definition sum (l : list float) : float :=
  add_reduce 0%float add (fill_zero <$> l).

(** [np.cumsum]: the first value, then each value added to the previous
    result. *)
Fixpoint running (acc : float) (l : list float) : list float :=
  match l with
  | [] => []
  | x :: l' => (acc + x)%float :: running (acc + x)%float l'
  end.

Definition np_cumsum (l : list float) : list float :=
  match l with
  | [] => []
  | x :: l' => x :: running x l'
  end.

(** [Series.cumsum()]: the running sum of the values with NaN read as
    zero; the result is NaN where the value is. *)
Definition cumsum (l : list float) : list float :=
  zip_with (fun x c => if is_nan x then nan else c) l (np_cumsum (fill_zero <$> l)).

(** The sum of one group of [groupby(...).sum()]. *)
Definition group_sum (l : list float) : float :=
  kahan_sum 0%float add sub is_nan l.

Definition DataFrame_of_dicts (rows_year : list DetailRow) : DataFrame DetailRow :=
  mkDataFrame (match rows_year with [] => [] | _ => detail_columns end) rows_year.

Definition group_sums (rs : list DetailRow) : list (Z * float) :=
  (fun k => (k, group_sum (d_premium <$> filter (fun r => d_age r = k) rs)))
    <$> merge_sort Z.le (unique (d_age <$> rs)).

Definition groupby_age_sum (df : DataFrame DetailRow) : result (list (Z * float)) :=
  let? rs := select df "年齡" in
  let? _ := select df "當年保費(元)" in
  ok (group_sums rs).

Definition age_le (x y : Z * float) : Prop := x.1 <= y.1.

#[global] Instance age_le_dec : RelDecision age_le :=
  fun x y => Z_le_dec x.1 y.1.

Definition sort_values_age (l : list (Z * float)) : list (Z * float) :=
  merge_sort age_le l.

Definition sub_of (all_rows : list RateRecord) (code sex : string)
    : list RateRecord :=
  filter (fun r => r_product_code r = code /\ r_sex r = sex) all_rows.

Definition units_of (sub : list RateRecord) : list string :=
  unique (r_unit <$> sub).

(** [multiplier = unit_to_multiplier(unit, amt) * qty]. *)
Definition multiplier_of (unit : string) (amt : float) (qty : Z) : result float :=
  let? m := unit_to_multiplier unit amt in
  let? q := float_of_Z qty in
  ok (m * q)%float.

Definition rate_map_of (sub : list RateRecord) : gmap Z float :=
  to_dict ((fun r => (r_age r, r_rate r)) <$> sub).

Definition missing_of (rate_map : gmap Z float) (ages : list Z) : list Z :=
  filter (fun a => rate_map !! a = None) ages.

(** The dict appended for age [a]; [int(amt)] is evaluated here and can
    raise.  The default of the lookup is never used. *)
Definition detail_row (item : Item) (unit : string) (multiplier : float)
    (rate_map : gmap Z float) (a : Z) : result DetailRow :=
  let rate := default nan (rate_map !! a) in
  let premium := (rate * multiplier)%float in
  let? amount := int_of_float (i_amount item) in
  ok (mkDetail a (i_product_code item) (i_product_name item) unit
               amount (i_qty item) rate premium).

Definition item_rows (rates_df : DataFrame RateRecord) (sex : string)
    (ages : list Z) (item : Item) : result (list DetailRow) :=
  let code := i_product_code item in
  let amt := i_amount item in
  let qty := i_qty item in
  let? all_rows := select rates_df "product_code" in
  let? _ := select rates_df "sex" in
  let sub := sub_of all_rows code sex in
  if bool_decide (sub = []) then raise (ProductNotFoundError code sex) else
  let? _ := select rates_df "unit" in
  let units := units_of sub in
  if bool_decide (length units ≠ 1%nat) then
    raise (InconsistentUnitError code units)
  else
  let unit := hd "" units in
  let? multiplier := multiplier_of unit amt qty in
  let? _ := set_index rates_df "age" in
  let? _ := select rates_df "rate" in
  let rate_map := rate_map_of sub in
  let missing := missing_of rate_map ages in
  if bool_decide (missing ≠ []) then
    raise (MissingAgeCoverageError code missing)
  else
  traverse (detail_row item unit multiplier rate_map) ages.

Fixpoint item_loop (rates_df : DataFrame RateRecord) (sex : string)
    (ages : list Z) (items : list Item) (rows_year : list DetailRow)
    : result (list DetailRow) :=
  match items with
  | [] => ok rows_year
  | item :: items' =>
      let? rs := item_rows rates_df sex ages item in
      item_loop rates_df sex ages items' (rows_year ++ rs)
  end.

Definition year_rows (year_sum : list (Z * float)) : list YearRow :=
  zip_with (fun ap c => mkYear ap.1 ap.2 c) year_sum (cumsum (snd <$> year_sum)).

Definition calc_total (rates_df : DataFrame RateRecord) (items : list Item)
    (sex : string) (start_age end_age : Z) (include_end : bool)
    : result (float * DataFrame DetailRow * DataFrame YearRow) :=
  if end_age <? start_age then raise InvalidRangeError else
  let ages := target_ages start_age end_age include_end in
  let? rows_year := item_loop rates_df sex ages items [] in
  let df_detail := DataFrame_of_dicts rows_year in
  let? grouped := groupby_age_sum df_detail in
  let year_sum := sort_values_age grouped in
  let df_year_sum := mkDataFrame year_columns (year_rows year_sum) in
  let total := sum (snd <$> year_sum) in
  ok (total, df_detail, df_year_sum).

(** Product A001 of the end-to-end scenario: ages 16 to 20 at rate 5.0. *)
Definition A001_rates : DataFrame RateRecord :=
  mkDataFrame rate_columns
    ((fun a => mkRate "A001" "TestLife" "per_10k" a "M" 5 "A001.csv")
       <$> range 16 21).

Definition A001_item : Item := mkItem "A001" "TestLife" 1000000 1.






Definition A001_total : float := 1500%float.
Definition A001_premiums : list float := [500; 500; 500]%float.
Definition A001_cumulative : list float := [500; 1000; 1500]%float.

End Doubles.

(** ** A concrete file system for the examples of [load_rates]

    Cells hold the text of a CSV field.  The directories: [rates] with two
    good files, the second readable only as cp950; [broken] with a file no
    encoding reads; [partial] with a file that lacks two columns; [dirty]
    with a file whose second row has a rate that is not a number; [odd] with
    a file whose age is not an integer; [stamped] with a file that is not
    utf-8 and has a [source_file] column of its own, in first place. *)

#[global] Instance TaggedRow_eq_dec {cell} `{EqDecision cell} :
  EqDecision (TaggedRow cell).
Proof. solve_decision. Defined.

Definition demo_astype_int (c : string) : option Z :=
  Z.of_int <$> NilZero.int_of_string c.

Definition demo_to_numeric (c : string) : option Qc :=
  Qc_of_Z <$> demo_astype_int c.

Fixpoint has_slash (s : string) : bool :=
  match s with
  | EmptyString => false
  | String c s' => Ascii.eqb c "/"%char || has_slash s'
  end.

Fixpoint demo_basename (s : string) : string :=
  match s with
  | EmptyString => EmptyString
  | String c s' =>
      if has_slash s' then demo_basename s'
      else if Ascii.eqb c "/"%char then s' else s
  end.

Definition demo_row (code name unit age sex rate : string) : gmap string string :=
  list_to_map [("product_code", code); ("product_name", name); ("unit", unit);
               ("age", age); ("sex", sex); ("rate", rate)].

Definition demo_A001 : RawFrame string :=
  mkRaw string required
    [demo_row "A001" "TestLife" "per_10k" "16" "M" "5";
     demo_row "A001" "TestLife" "per_10k" "17" "M" "5"].

Definition demo_B002 : RawFrame string :=
  mkRaw string required
    [demo_row "B002" "Rider" "per_1k" "16" "M" "2"].

Definition demo_partial : RawFrame string :=
  mkRaw string ["product_code"; "product_name"; "unit"; "age"]
    [list_to_map [("product_code", "P"); ("product_name", "Partial");
                  ("unit", "per_1"); ("age", "16")]].

Definition demo_dirty : RawFrame string :=
  mkRaw string required
    [demo_row "D" "Dirty" "per_1" "16" "M" "5";
     demo_row "D" "Dirty" "per_1" "17" "M" "n/a"].

Definition demo_odd : RawFrame string :=
  mkRaw string required [demo_row "O" "Odd" "per_1" "sixteen" "M" "5"].

Definition demo_stamped : RawFrame string :=
  mkRaw string ("source_file" :: required)
    [<["source_file" := "old.csv"]> (demo_row "S" "Stamped" "per_1" "16" "M" "5")].

Definition demo_isdir (d : string) : bool :=
  bool_decide (d ∈ ["rates"; "broken"; "partial"; "dirty"; "odd"; "stamped"]).

Definition demo_glob_csv (d : string) : list string :=
  if String.eqb d "rates" then ["rates/A001.csv"; "rates/B002.csv"]
  else if String.eqb d "broken" then ["broken/X.csv"]
  else if String.eqb d "partial" then ["partial/P.csv"]
  else if String.eqb d "dirty" then ["dirty/D.csv"]
  else if String.eqb d "odd" then ["odd/O.csv"]
  else if String.eqb d "stamped" then ["stamped/S.csv"]
  else [].

Definition demo_read_csv (f : string) (enc : encoding) : read_outcome string :=
  if String.eqb f "rates/A001.csv" then Parsed string demo_A001
  else if String.eqb f "rates/B002.csv" then
    match enc with
    | utf_8 | utf_8_sig => UnicodeDecodeError string
    | cp950 | big5 => Parsed string demo_B002
    end
  else if String.eqb f "partial/P.csv" then Parsed string demo_partial
  else if String.eqb f "dirty/D.csv" then Parsed string demo_dirty
  else if String.eqb f "odd/O.csv" then Parsed string demo_odd
  else if String.eqb f "stamped/S.csv" then
    match enc with
    | utf_8 => UnicodeDecodeError string
    | utf_8_sig | cp950 | big5 => Parsed string demo_stamped
    end
  else UnicodeDecodeError string.

Definition demo_load_rates (rates_dir : string) : result (DataFrame RateRecord) :=
  load_rates string "nan" demo_astype_int (fun c => c) demo_to_numeric
             (fun s => s) (fun s => s)
             demo_isdir demo_glob_csv demo_basename demo_read_csv rates_dir.

Definition demo_read_file (f : string) : result (list string * list (TaggedRow string)) :=
  read_file string demo_basename demo_read_csv f.

(** The table loaded from [rates]. *)
Definition demo_table : DataFrame RateRecord :=
  mkDataFrame rate_columns
    [mkRate "A001" "TestLife" "per_10k" 16 "M" (Qc_of_Z 5) "A001.csv";
     mkRate "A001" "TestLife" "per_10k" 17 "M" (Qc_of_Z 5) "A001.csv";
     mkRate "B002" "Rider" "per_1k" 16 "M" (Qc_of_Z 2) "B002.csv"].

(** What reading the files of [partial], [dirty] and [odd] gives. *)
Definition demo_tagged (f : string) (raw : RawFrame string)
    : list string * list (TaggedRow string) :=
  (raw_columns string raw ++ ["source_file"],
   (fun r => mkTagged string r (demo_basename f)) <$> raw_rows string raw).

(** ** The product list and the basket of the page

    The part of the script around [calc_total] that is plain computation:
    the options of the product select box (lines 77 to 82) and the item
    appended when the add button is pressed (lines 117 to 121).  A Python
    string is held as the bytes of its UTF-8 text; the separator [｜]
    (U+FF5C) is three bytes, and in well-formed UTF-8 the occurrences of
    these bytes are the occurrences of the character. *)

Definition bar : string := "｜".

(** [Some rest] when [s] is [p] followed by [rest]. *)
Fixpoint strip_prefix (p s : string) : option string :=
  match p, s with
  | EmptyString, _ => Some s
  | String a p', String b s' =>
      if Ascii.eqb a b then strip_prefix p' s' else None
  | String _ _, EmptyString => None
  end.

(** [s.split(sep, 1)] for a non-empty [sep]: the text before the first
    occurrence of [sep] and the text after it; [None] when [sep] does not
    occur, where Python returns a one-element list. *)
Fixpoint split_once (sep s : string) : option (string * string) :=
  match strip_prefix sep s with
  | Some rest => Some (EmptyString, rest)
  | None =>
      match s with
      | EmptyString => None
      | String c s' =>
          match split_once sep s' with
          | Some (before, after) => Some (String c before, after)
          | None => None
          end
      end
  end.

(** The order of [sort_values(["product_code", "product_name"])]. *)
Definition pair_le (x y : string * string) : Prop :=
  String.ltb x.1 y.1 = true \/ (x.1 = y.1 /\ String.leb x.2 y.2 = true).

#[global] Instance pair_le_dec : RelDecision pair_le.
Proof. intros x y. unfold pair_le. apply _. Defined.

(** [rates[["product_code", "product_name"]].drop_duplicates()
    .sort_values(["product_code", "product_name"])]. *)
Definition products (rates : DataFrame RateRecord)
    : result (list (string * string)) :=
  let? rs := select rates "product_code" in
  let? _ := select rates "product_name" in
  ok (merge_sort pair_le
        (unique ((fun r => (r_product_code r, r_product_name r)) <$> rs))).

(** The f-string of an option: code, separator, name. *)
Definition option_label (p : string * string) : string :=
  (p.1 ++ bar ++ p.2)%string.

Definition product_options (rates : DataFrame RateRecord) : result (list string) :=
  let? ps := products rates in
  ok (option_label <$> ps).

(** The [if add_btn:] block: [code, name = pick.split("｜", 1)], then the
    dict appended to the session list.  [None] stands for the [ValueError]
    of unpacking a one-element list. *)
Definition add_item (items : list Item) (pick : string) (amount qty : Z)
    : option (list Item) :=
  match split_once bar pick with
  | Some (code, name) => Some (items ++ [mkItem code name (Qc_of_Z amount) qty])
  | None => None
  end.

(** A text in which the separator occurs. *)
Definition contains_bar (s : string) : Prop :=
  exists l r : string, s = (l ++ bar ++ r)%string.

(** ** Vocabulary of the statements *)

(** The order "by (age, product_code)" on detail rows: ages first, ties by
    the product code in the order of Python strings. *)
Definition detail_key_le (r1 r2 : DetailRow) : Prop :=
  d_age r1 < d_age r2 \/
  (d_age r1 = d_age r2 /\ String.leb (d_code r1) (d_code r2) = true).

(** The rate row that prices [(code, sex, age)] under a first-match-wins
    and under a last-write-wins reading. *)
Definition same_key (code sex : string) (a : Z) (r : RateRecord) : Prop :=
  r_product_code r = code /\ r_sex r = sex /\ r_age r = a.

#[global] Instance same_key_dec code sex a r : Decision (same_key code sex a r).
Proof. unfold same_key. apply _. Defined.

Definition first_match (df : DataFrame RateRecord) (code sex : string) (a : Z)
    : option RateRecord :=
  head (filter (same_key code sex a) (rows df)).

Definition last_match (df : DataFrame RateRecord) (code sex : string) (a : Z)
    : option RateRecord :=
  last (filter (same_key code sex a) (rows df)).

(** Columns that [calc_total] reads from the rate table. *)
Definition has_rate_columns (rates_df : DataFrame RateRecord) : Prop :=
  Forall (fun c => c ∈ columns rates_df) ["product_code"; "sex"; "unit"; "age"; "rate"].

(** * Properties *)

(** ** The result monad *)

Lemma bind_ok {A B} (c : result A) (k : A -> result B) (b : B) :
  bind c k = inr b -> exists a, c = inr a /\ k a = inr b.
Proof. destruct c as [e|a]; simpl; [discriminate | eauto]. Qed.

Lemma select_ok {R} (df : DataFrame R) (name : string) (rs : list R) :
  select df name = inr rs -> rs = rows df /\ name ∈ columns df.
Proof.
  unfold select. case_bool_decide; [|discriminate].
  intros [= <-]. auto.
Qed.

Lemma select_in {R} (df : DataFrame R) (name : string) :
  name ∈ columns df -> select df name = ok (rows df).
Proof. intros Hin. unfold select. by rewrite bool_decide_eq_true_2. Qed.

(** ** [range] and the target age sequence *)

Lemma elem_of_range (lo hi a : Z) : a ∈ range lo hi <-> lo <= a < hi.
Proof. unfold range. rewrite elem_of_seqZ. lia. Qed.

Lemma StronglySorted_seqZ (m n : Z) : StronglySorted Z.lt (seqZ m n).
Proof.
  destruct (decide (0 <= n)) as [Hn|Hn]; [|rewrite seqZ_nil by lia; constructor].
  revert m. pattern n. apply natlike_ind; [| |exact Hn].
  - intros m. rewrite seqZ_nil by lia. constructor.
  - intros k Hk IH m. rewrite seqZ_cons by lia.
    replace (Z.pred (Z.succ k)) with k by lia.
    constructor; [apply IH|].
    apply Forall_forall. intros x Hx. apply elem_of_seqZ in Hx. lia.
Qed.

Lemma range_sorted (lo hi : Z) : StronglySorted Z.lt (range lo hi).
Proof. apply StronglySorted_seqZ. Qed.

Lemma range_nil (lo hi : Z) : hi <= lo -> range lo hi = [].
Proof. intros. unfold range. apply seqZ_nil. lia. Qed.

Lemma target_ages_degenerate (a : Z) : target_ages a a false = [].
Proof. unfold target_ages. apply range_nil. lia. Qed.

Lemma target_ages_sorted (s e : Z) (inc : bool) :
  StronglySorted Z.lt (target_ages s e inc).
Proof. apply range_sorted. Qed.

(** ** [unit_to_multiplier] *)

(** C4: per_10k divides the amount by 10,000, per_1k by 1,000, per_1
    returns it unchanged (so 1,000,000 gives 100, 1,000 and 1,000,000), and
    every other unit string raises the unsupported-unit error: no default
    is substituted. *)
Theorem unit_to_multiplier_spec (amount : Qc) :
  unit_to_multiplier "per_10k" amount = ok (amount / Qc_of_Z 10000)%Qc /\
  unit_to_multiplier "per_1k" amount = ok (amount / Qc_of_Z 1000)%Qc /\
  unit_to_multiplier "per_1" amount = ok amount /\
  unit_to_multiplier "per_10k" (Qc_of_Z 1000000) = ok (Qc_of_Z 100) /\
  unit_to_multiplier "per_1k" (Qc_of_Z 1000000) = ok (Qc_of_Z 1000) /\
  (forall unit : string,
     unit ∉ ["per_10k"; "per_1k"; "per_1"] ->
     unit_to_multiplier unit amount = raise (UnsupportedUnitError unit)).
Proof.
  repeat split; try reflexivity; try compute_done.
  intros unit Hunit. unfold unit_to_multiplier.
  destruct (String.eqb_spec unit "per_10k") as [->|_]; [set_solver|].
  destruct (String.eqb_spec unit "per_1k") as [->|_]; [set_solver|].
  destruct (String.eqb_spec unit "per_1") as [->|_]; [set_solver|].
  reflexivity.
Qed.

Lemma unit_to_multiplier_spec_witness :
  unit_to_multiplier "per_100" (Qc_of_Z 1000000)
  = raise (UnsupportedUnitError "per_100").
Proof.
  apply (unit_to_multiplier_spec (Qc_of_Z 1000000)).
  intros H. repeat (apply elem_of_cons in H as [H|H]; [discriminate|]).
  by apply elem_of_nil in H.
Defined.

(** C8: for a window with [end_age >= start_age] the target sequence holds
    exactly the integers from [start_age] up to [end_age], each once and in
    ascending order, with [end_age] itself iff [include_end] is set; 16 to 50
    gives 35 ages when the end is included and 34 when it is not; a window
    with [end_age < start_age] makes [calc_total] raise the range error. *)
Theorem target_ages_spec (start_age end_age : Z) (include_end : bool) :
  (start_age <= end_age ->
     (forall a : Z,
        a ∈ target_ages start_age end_age include_end <->
        start_age <= a /\ (a < end_age \/ (a = end_age /\ include_end = true))) /\
     StronglySorted Z.lt (target_ages start_age end_age include_end)) /\
  length (target_ages 16 50 true) = 35%nat /\
  length (target_ages 16 50 false) = 34%nat /\
  (end_age < start_age ->
     forall (rates_df : DataFrame RateRecord) (items : list Item) (sex : string),
       calc_total rates_df items sex start_age end_age include_end
       = raise InvalidRangeError).
Proof.
  split; [|split; [reflexivity|split; [reflexivity|]]].
  - intros Hle. split; [|apply target_ages_sorted].
    intros a. unfold target_ages. rewrite elem_of_range.
    destruct include_end; intuition (try discriminate; lia).
  - intros Hlt rates_df items sex. unfold calc_total.
    apply Z.ltb_lt in Hlt. by rewrite Hlt.
Qed.

Lemma target_ages_spec_witness :
  (forall a : Z,
     a ∈ target_ages 16 18 true <->
     16 <= a /\ (a < 18 \/ (a = 18 /\ true = true))) /\
  calc_total A001_rates [A001_item] "M" 18 16 true = raise InvalidRangeError.
Proof.
  split.
  - apply (target_ages_spec 16 18 true). lia.
  - apply (target_ages_spec 18 16 true). lia.
Defined.

(** ** The end-to-end scenario *)

(** C2: with product A001 (per_10k, sex M, ages 16 to 20 at rate 5), the
    item (A001, 1,000,000, 1) and the window (M, 16, 18, end included), the
    multiplier is 100, each of the ages 16, 17 and 18 has a premium of 500,
    the year summary is (16,500,500), (17,500,1000), (18,500,1500) and the
    total is 1500. *)
Theorem end_to_end_scenario :
  multiplier_of "per_10k" (i_amount A001_item) (i_qty A001_item)
  = ok (Qc_of_Z 100) /\
  calc_total A001_rates [A001_item] "M" 16 18 true
  = ok (Qc_of_Z 1500,
        mkDataFrame detail_columns
          [mkDetail 16 "A001" "TestLife" "per_10k" 1000000 1 (Qc_of_Z 5) (Qc_of_Z 500);
           mkDetail 17 "A001" "TestLife" "per_10k" 1000000 1 (Qc_of_Z 5) (Qc_of_Z 500);
           mkDetail 18 "A001" "TestLife" "per_10k" 1000000 1 (Qc_of_Z 5) (Qc_of_Z 500)],
        mkDataFrame year_columns
          [mkYear 16 (Qc_of_Z 500) (Qc_of_Z 500);
           mkYear 17 (Qc_of_Z 500) (Qc_of_Z 1000);
           mkYear 18 (Qc_of_Z 500) (Qc_of_Z 1500)]).
Proof. split; compute_done. Qed.

(** ** [load_rates] without files *)

(** C10: when the directory does not exist, or holds no CSV file,
    [load_rates] returns the empty frame and raises nothing, whatever the
    reader and the conversions are. *)
Theorem load_rates_without_files (cell : Type) (nan : cell)
    (astype_int : cell -> option Z) (astype_str : cell -> string)
    (to_numeric : cell -> option Qc) (upper strip : string -> string)
    (isdir : string -> bool) (glob_csv : string -> list string)
    (basename : string -> string)
    (read_csv : string -> encoding -> read_outcome cell)
    (rates_dir : string) :
  isdir rates_dir = false \/ glob_csv rates_dir = [] ->
  load_rates cell nan astype_int astype_str to_numeric upper strip
             isdir glob_csv basename read_csv rates_dir
  = ok empty_frame /\
  df_empty (@empty_frame RateRecord) = true.
Proof.
  intros Hnone. split; [|reflexivity]. unfold load_rates.
  destruct (isdir rates_dir) eqn:Hdir; simpl; [|reflexivity].
  destruct Hnone as [?|Hglob]; [discriminate|].
  by rewrite bool_decide_eq_true_2.
Qed.

Lemma load_rates_without_files_witness :
  load_rates string "nan" (fun _ => None) (fun c => c) (fun _ => None)
             (fun s => s) (fun s => s)
             (fun _ => true) (fun _ => []) (fun s => s)
             (fun _ _ => UnicodeDecodeError string) "rates"
  = ok empty_frame /\
  df_empty (@empty_frame RateRecord) = true.
Proof.
  apply (load_rates_without_files string "nan" (fun _ => None) (fun c => c)
           (fun _ => None) (fun s => s) (fun s => s)
           (fun _ => true) (fun _ => []) (fun s => s)
           (fun _ _ => UnicodeDecodeError string) "rates").
  right. reflexivity.
Defined.

(** ** The loop over the items *)

Lemma length_one_inv {A} (l : list A) : length l = 1%nat -> exists x, l = [x].
Proof. destruct l as [|x [|y l]]; simpl; intros; try lia. eauto. Qed.

(** What a successful run of the loop body has established. *)
Lemma item_rows_ok (rates_df : DataFrame RateRecord) (sex : string)
    (ages : list Z) (item : Item) (rs : list DetailRow) :
  item_rows rates_df sex ages item = inr rs ->
  exists (unit : string) (multiplier : Qc),
    sub_of (rows rates_df) (i_product_code item) sex ≠ [] /\
    units_of (sub_of (rows rates_df) (i_product_code item) sex) = [unit] /\
    multiplier_of unit (i_amount item) (i_qty item) = inr multiplier /\
    missing_of (rate_map_of (sub_of (rows rates_df) (i_product_code item) sex)) ages = [] /\
    rs = detail_row item unit multiplier
           (rate_map_of (sub_of (rows rates_df) (i_product_code item) sex)) <$> ages.
Proof.
  unfold item_rows. intros H.
  apply bind_ok in H as (all_rows & Hsel & H). apply select_ok in Hsel as [-> _].
  apply bind_ok in H as (? & _ & H).
  case_bool_decide as Hsub; [discriminate|].
  apply bind_ok in H as (? & _ & H).
  case_bool_decide as Hlen; [discriminate|].
  apply length_one_inv in Hlen as [unit Hunits].
  rewrite Hunits in H. simpl in H.
  apply bind_ok in H as (multiplier & Hmul & H).
  apply bind_ok in H as (? & _ & H). apply bind_ok in H as (? & _ & H).
  case_bool_decide as Hmiss; [discriminate|].
  injection H as <-.
  exists unit, multiplier. auto.
Qed.

Lemma has_rate_columns_select (rates_df : DataFrame RateRecord) :
  has_rate_columns rates_df ->
  select rates_df "product_code" = ok (rows rates_df) /\
  select rates_df "sex" = ok (rows rates_df) /\
  select rates_df "unit" = ok (rows rates_df) /\
  set_index rates_df "age" = ok (rows rates_df) /\
  select rates_df "rate" = ok (rows rates_df).
Proof.
  unfold has_rate_columns. rewrite !Forall_cons.
  intros (?&?&?&Hage&?&_). repeat split; try by apply select_in.
  unfold set_index. by rewrite bool_decide_eq_true_2.
Qed.

(** The loop is a traversal of the items by the loop body. *)
Lemma item_loop_traverse (rates_df : DataFrame RateRecord) (sex : string)
    (ages : list Z) (items : list Item) (rows_year : list DetailRow) :
  item_loop rates_df sex ages items rows_year
  = let? rss := traverse (item_rows rates_df sex ages) items in
    ok (rows_year ++ mjoin rss).
Proof.
  revert rows_year. induction items as [|item items IH]; intros rows_year; simpl.
  - by rewrite app_nil_r.
  - destruct (item_rows rates_df sex ages item) as [e|rs]; simpl; [done|].
    rewrite IH. destruct (traverse _ items) as [e|rss]; simpl; [done|].
    by rewrite app_assoc.
Qed.

Lemma traverse_ok_Forall2 {A B} (f : A -> result B) (l : list A) (ys : list B) :
  traverse f l = inr ys <-> Forall2 (fun x y => f x = inr y) l ys.
Proof.
  revert ys. induction l as [|x l IH]; intros ys; simpl.
  - split; [intros [= <-]; constructor | by inversion 1].
  - split.
    + intros H. apply bind_ok in H as (y & Hy & H).
      apply bind_ok in H as (ys' & Hys & [= <-]).
      constructor; [done | by apply IH].
    + inversion 1 as [|? y ? ys' Hy Hys]; subst.
      rewrite Hy. simpl. apply IH in Hys. by rewrite Hys.
Qed.

Lemma traverse_first_failure {A B} (f : A -> result B) (pre post : list A)
    (x : A) (e : error) :
  Forall (fun y => succeeds (f y)) pre ->
  f x = inl e ->
  traverse f (pre ++ x :: post) = inl e.
Proof.
  intros Hpre Hx. induction Hpre as [|y pre [b Hy] _ IH]; simpl.
  - by rewrite Hx.
  - by rewrite Hy, IH.
Qed.

(** ** [unique] *)

Lemma elem_of_unique_aux {A} `{EqDecision A} (seen l : list A) (x : A) :
  x ∈ unique_aux seen l <-> x ∈ l /\ x ∉ seen.
Proof.
  revert seen. induction l as [|y l IHl]; intros seen; simpl.
  - rewrite elem_of_nil. tauto.
  - case_bool_decide as Hy.
    + rewrite IHl, elem_of_cons. split; [tauto|].
      intros [[->|Hx] Hs]; [contradiction|tauto].
    + rewrite !elem_of_cons, IHl, !elem_of_cons.
      destruct (decide (x = y)) as [->|Hne]; [tauto|]. tauto.
Qed.

Lemma NoDup_unique_aux {A} `{EqDecision A} (seen l : list A) :
  NoDup (unique_aux seen l).
Proof.
  revert seen. induction l as [|y l IH]; intros seen; simpl.
  - constructor.
  - case_bool_decide; [apply IH|].
    constructor; [|apply IH].
    rewrite elem_of_unique_aux, elem_of_cons. tauto.
Qed.

Lemma elem_of_unique {A} `{EqDecision A} (l : list A) (x : A) :
  x ∈ unique l <-> x ∈ l.
Proof. unfold unique. rewrite elem_of_unique_aux, elem_of_nil. tauto. Qed.

Lemma NoDup_unique {A} `{EqDecision A} (l : list A) : NoDup (unique l).
Proof. apply NoDup_unique_aux. Qed.

Lemma unique_nil_inv {A} `{EqDecision A} (l : list A) : unique l = [] -> l = [].
Proof.
  destruct l as [|x l]; [done|]. intros Hu.
  assert (x ∈ unique (x :: l)) as Hx by (apply elem_of_unique; left).
  rewrite Hu in Hx. by apply elem_of_nil in Hx.
Qed.

(** ** Sorting the groups *)

#[local] Instance age_le_trans : Transitive age_le.
Proof. unfold age_le. intros x y z. lia. Qed.

#[local] Instance age_le_total : Total age_le.
Proof. unfold age_le. intros x y. lia. Qed.

Lemma StronglySorted_le_NoDup_lt (l : list Z) :
  StronglySorted Z.le l -> NoDup l -> StronglySorted Z.lt l.
Proof.
  induction 1 as [|x l Hl IH Hx]; intros Hnd; [constructor|].
  apply NoDup_cons in Hnd as [Hnin Hnd]. constructor; [auto|].
  rewrite Forall_forall in Hx |- *. intros y Hy.
  assert (x ≠ y) by (intros ->; done). specialize (Hx y Hy). lia.
Qed.

Lemma group_sums_keys (rs : list DetailRow) :
  (group_sums rs).*1 = merge_sort Z.le (unique (d_age <$> rs)).
Proof.
  unfold group_sums. rewrite <-list_fmap_compose. apply list_fmap_id.
Qed.

(** The ages of the year summary: every age of a detail row, once, in
    strictly ascending order. *)
Lemma year_sum_ages (rs : list DetailRow) :
  StronglySorted Z.lt (sort_values_age (group_sums rs)).*1 /\
  (forall a, a ∈ (sort_values_age (group_sums rs)).*1 <-> a ∈ d_age <$> rs).
Proof.
  assert ((sort_values_age (group_sums rs)).*1 ≡ₚ unique (d_age <$> rs)) as Hperm.
  { unfold sort_values_age. rewrite merge_sort_Permutation, group_sums_keys.
    apply merge_sort_Permutation. }
  split.
  - apply StronglySorted_le_NoDup_lt.
    + apply (StronglySorted_fmap _ age_le); [done|].
      apply (StronglySorted_merge_sort _).
    + rewrite Hperm. apply NoDup_unique.
  - intros a. rewrite Hperm. apply elem_of_unique.
Qed.


Lemma year_rows_age (year_sum : list (Z * Qc)) :
  y_age <$> year_rows year_sum = year_sum.*1.
Proof.
  unfold year_rows, cumsum. generalize 0%Qc.
  induction year_sum as [|[a p] l IH]; intros acc; simpl; [done|].
  f_equal. apply IH.
Qed.



(** ** Successful runs of [calc_total] *)

Lemma calc_total_ok (rates_df : DataFrame RateRecord) (items : list Item)
    (sex : string) (start_age end_age : Z) (include_end : bool)
    (total : Qc) (df_detail : DataFrame DetailRow) (df_year : DataFrame YearRow) :
  calc_total rates_df items sex start_age end_age include_end
  = inr (total, df_detail, df_year) ->
  exists rss : list (list DetailRow),
    start_age <= end_age /\
    Forall2 (fun item rs =>
               item_rows rates_df sex
                 (target_ages start_age end_age include_end) item = inr rs)
            items rss /\
    mjoin rss ≠ [] /\
    df_detail = mkDataFrame detail_columns (mjoin rss) /\
    df_year = mkDataFrame year_columns
                (year_rows (sort_values_age (group_sums (mjoin rss)))) /\
    total = sum (sort_values_age (group_sums (mjoin rss))).*2.
Proof.
  unfold calc_total. destruct (end_age <? start_age) eqn:Hlt; [discriminate|].
  apply Z.ltb_ge in Hlt. rewrite item_loop_traverse. intros H.
  apply bind_ok in H as (rows_year & Hloop & H).
  apply bind_ok in Hloop as (rss & Hrss & [= <-]). simpl in H.
  apply traverse_ok_Forall2 in Hrss.
  apply bind_ok in H as (grouped & Hg & [= <- <- <-]).
  unfold groupby_age_sum in Hg.
  apply bind_ok in Hg as (rs & Hsel & Hg). apply select_ok in Hsel as [-> Hcol].
  apply bind_ok in Hg as (? & _ & [= <-]). simpl in *.
  exists rss. destruct (mjoin rss) as [|r rs] eqn:Hj.
  - by apply elem_of_nil in Hcol.
  - done.
Qed.

Lemma item_rows_no_ages (rates_df : DataFrame RateRecord) (sex : string)
    (item : Item) (rs : list DetailRow) :
  item_rows rates_df sex [] item = inr rs -> rs = [].
Proof. intros H. apply item_rows_ok in H as (?&?&_&_&_&_&->). done. Qed.

(** C1 (what the code does): with [start_age = end_age] and the end
    excluded the age sequence is empty and [calc_total] never returns: when
    every item passes its checks, no dict is appended, the detail frame has
    no column and the group-by raises [KeyError]; for product A001 at age 20
    the result is that [KeyError], not an empty summary with total 0. *)
Theorem degenerate_window_raises :
  (forall (rates_df : DataFrame RateRecord) (items : list Item) (sex : string)
          (age : Z),
     exists e : error, calc_total rates_df items sex age age false = inl e) /\
  calc_total A001_rates [A001_item] "M" 20 20 false = raise (KeyError "年齡").
Proof.
  split; [|compute_done].
  intros rates_df items sex age.
  destruct (calc_total rates_df items sex age age false) as [e|[[total d] y]] eqn:H;
    [by exists e|].
  apply calc_total_ok in H as (rss & _ & Hrss & Hne & _).
  rewrite target_ages_degenerate in Hrss. destruct Hne.
  clear -Hrss. induction Hrss as [|item rs items rss Hrs _ IH]; [done|].
  apply item_rows_no_ages in Hrs as ->. done.
Qed.

(** ** Order of the returned rows *)

Lemma detail_row_ages (item : Item) (unit : string) (multiplier : Qc)
    (rate_map : gmap Z Qc) (ages : list Z) :
  d_age <$> (detail_row item unit multiplier rate_map <$> ages) = ages.
Proof. rewrite <-list_fmap_compose. apply list_fmap_id. Qed.

(** C3 (as the code has it): on success the detail frame holds one block of
    rows per item, in the order of [items], each block listing the target
    ages in ascending order under that item's product code; the rows of the
    year summary are in strictly ascending order of age. *)
Theorem detail_by_item_year_by_age (rates_df : DataFrame RateRecord)
    (items : list Item) (sex : string) (start_age end_age : Z)
    (include_end : bool) (total : Qc) (df_detail : DataFrame DetailRow)
    (df_year : DataFrame YearRow) :
  calc_total rates_df items sex start_age end_age include_end
  = inr (total, df_detail, df_year) ->
  (exists blocks : list (list DetailRow),
     rows df_detail = mjoin blocks /\
     Forall2 (fun item block =>
                d_age <$> block = target_ages start_age end_age include_end /\
                Forall (fun r => d_code r = i_product_code item) block)
             items blocks) /\
  StronglySorted Z.lt (target_ages start_age end_age include_end) /\
  StronglySorted Z.lt (y_age <$> rows df_year).
Proof.
  intros H. apply calc_total_ok in H as (rss & _ & Hrss & _ & -> & -> & _).
  split; [|split].
  - exists rss. split; [done|].
    eapply Forall2_impl; [exact Hrss|]. intros item rs Hrs. simpl in Hrs.
    apply item_rows_ok in Hrs as (unit & m & _ & _ & _ & _ & ->).
    split; [apply detail_row_ages|].
    apply Forall_fmap, Forall_forall. done.
  - apply target_ages_sorted.
  - simpl. rewrite year_rows_age. apply year_sum_ages.
Qed.

Lemma detail_by_item_year_by_age_witness :
  (exists blocks : list (list DetailRow),
     [mkDetail 16 "A001" "TestLife" "per_10k" 1000000 1 (Qc_of_Z 5) (Qc_of_Z 500);
      mkDetail 17 "A001" "TestLife" "per_10k" 1000000 1 (Qc_of_Z 5) (Qc_of_Z 500);
      mkDetail 18 "A001" "TestLife" "per_10k" 1000000 1 (Qc_of_Z 5) (Qc_of_Z 500)]
     = mjoin blocks /\
     Forall2 (fun item block =>
                d_age <$> block = target_ages 16 18 true /\
                Forall (fun r => d_code r = i_product_code item) block)
             [A001_item] blocks) /\
  StronglySorted Z.lt (target_ages 16 18 true) /\
  StronglySorted Z.lt [16; 17; 18].
Proof.
  apply (detail_by_item_year_by_age A001_rates [A001_item] "M" 16 18 true
           (Qc_of_Z 1500)
           (mkDataFrame detail_columns
              [mkDetail 16 "A001" "TestLife" "per_10k" 1000000 1 (Qc_of_Z 5) (Qc_of_Z 500);
               mkDetail 17 "A001" "TestLife" "per_10k" 1000000 1 (Qc_of_Z 5) (Qc_of_Z 500);
               mkDetail 18 "A001" "TestLife" "per_10k" 1000000 1 (Qc_of_Z 5) (Qc_of_Z 500)])
           (mkDataFrame year_columns
              [mkYear 16 (Qc_of_Z 500) (Qc_of_Z 500);
               mkYear 17 (Qc_of_Z 500) (Qc_of_Z 1000);
               mkYear 18 (Qc_of_Z 500) (Qc_of_Z 1500)])).
  compute_done.
Defined.

(** C3 (as stated) fails: with the two items A001 and B002 and the ages 16
    and 17, the returned detail rows are (16,A001), (17,A001), (16,B002),
    (17,B002), which is not sorted by (age, product_code). *)
Lemma detail_rows_not_sorted_by_age_code :
  exists (total : Qc) (df_detail : DataFrame DetailRow) (df_year : DataFrame YearRow),
    calc_total two_rates [A001_item; B002_item] "M" 16 17 true
    = inr (total, df_detail, df_year) /\
    (d_age <$> rows df_detail = [16; 17; 16; 17]) /\
    ~ Sorted detail_key_le (rows df_detail).
Proof.
  eexists _, _, _. split; [vm_compute; reflexivity|]. split; [reflexivity|].
  cbn [rows]. intros Hs.
  apply Sorted_inv in Hs as [Hs _]. apply Sorted_inv in Hs as [_ Hh].
  apply HdRel_inv in Hh. unfold detail_key_le in Hh. cbn in Hh.
  destruct Hh as [?|[? _]]; lia.
Qed.

(** ** The rate lookup *)

(** A key of [to_dict] maps to the value of the last pair that carries it. *)
Lemma to_dict_lookup (kvs : list (Z * Qc)) (k : Z) :
  to_dict kvs !! k = snd <$> last (filter (fun kv => kv.1 = k) kvs).
Proof.
  unfold to_dict. induction kvs as [|[k' v] kvs IH] using rev_ind.
  - done.
  - rewrite foldl_app, filter_app. simpl.
    destruct (decide (k' = k)) as [->|Hne].
    + rewrite lookup_insert_eq, filter_cons_True, filter_nil by done.
      by rewrite last_snoc.
    + rewrite lookup_insert_ne, filter_cons_False, filter_nil, app_nil_r by done.
      apply IH.
Qed.

Lemma rate_map_of_lookup (sub : list RateRecord) (a : Z) :
  rate_map_of sub !! a = r_rate <$> last (filter (fun r => r_age r = a) sub).
Proof.
  unfold rate_map_of. rewrite to_dict_lookup.
  induction sub as [|r sub IH] using rev_ind; [done|].
  rewrite fmap_app, !filter_app. simpl.
  destruct (decide (r_age r = a)) as [Ha|Ha].
  - rewrite !filter_cons_True, !filter_nil by done. by rewrite !last_snoc.
  - rewrite !filter_cons_False, !filter_nil, !app_nil_r by done. apply IH.
Qed.



Lemma elem_of_sub_of (all_rows : list RateRecord) (code sex : string)
    (r : RateRecord) :
  r ∈ sub_of all_rows code sex <->
  r ∈ all_rows /\ r_product_code r = code /\ r_sex r = sex.
Proof. unfold sub_of. rewrite list_elem_of_filter. tauto. Qed.

Lemma elem_of_missing_of (rate_map : gmap Z Qc) (ages : list Z) (a : Z) :
  a ∈ missing_of rate_map ages <-> a ∈ ages /\ rate_map !! a = None.
Proof. unfold missing_of. rewrite list_elem_of_filter. tauto. Qed.

(** After the check on [missing] every target age is a key of the map. *)
Lemma missing_nil_lookup (rate_map : gmap Z Qc) (ages : list Z) (a : Z) :
  missing_of rate_map ages = [] -> a ∈ ages -> is_Some (rate_map !! a).
Proof.
  intros Hnil Ha. destruct (rate_map !! a) eqn:Hl; [eauto|].
  assert (a ∈ missing_of rate_map ages) as Hin by by apply elem_of_missing_of.
  rewrite Hnil in Hin. by apply elem_of_nil in Hin.
Qed.

(** ** Sums *)

Local Open Scope Qc_scope.


(** In exact arithmetic the order of the additions does not matter: the
    pairwise sum and the compensated group sum are the sum of the values
    taken in turn. *)
Lemma foldl_Qcplus_shift (l : list Qc) (acc : Qc) :
  foldl Qcplus acc l = acc + foldl Qcplus 0 l.
Proof.
  revert acc. induction l as [|x l IH]; intros acc; simpl.
  - by rewrite Qcplus_0_r.
  - rewrite IH, (IH (0 + x)), Qcplus_0_l. by rewrite Qcplus_assoc.
Qed.

Lemma add_chunks_total (n : nat) (l : list Qc) (r : lanes) :
  (length l <= n)%nat ->
  lanes_total (add_chunks Qcplus r l).1 + foldl Qcplus 0 (add_chunks Qcplus r l).2
  = lanes_total r + foldl Qcplus 0 l.
Proof.
  revert l r. induction n as [n IH] using lt_wf_ind. intros l r Hlen.
  destruct l as [|a0 [|a1 [|a2 [|a3 [|a4 [|a5 [|a6 [|a7 l]]]]]]]]; try done.
  cbn [add_chunks]. rewrite (IH (length l)); [|simpl in Hlen; lia|done].
  cbn [foldl]. rewrite (foldl_Qcplus_shift l (_ + _)).
  unfold lanes_total. cbn [r0 r1 r2 r3 r4 r5 r6 r7]. ring.
Qed.

Lemma block_sum_foldl (l : list Qc) :
  block_sum 0 Qcplus l = foldl Qcplus 0 l.
Proof.
  destruct l as [|a0 [|a1 [|a2 [|a3 [|a4 [|a5 [|a6 [|a7 l]]]]]]]]; try done.
  cbn [block_sum].
  pose proof (add_chunks_total (length l) l (mkLanes a0 a1 a2 a3 a4 a5 a6 a7)
                (le_n _)) as Htotal.
  destruct (add_chunks Qcplus _ l) as [r rest]. cbn [fst snd] in Htotal.
  rewrite foldl_Qcplus_shift. fold (lanes_total r). rewrite Htotal.
  cbn [foldl]. rewrite (foldl_Qcplus_shift l (_ + _)).
  unfold lanes_total. cbn [r0 r1 r2 r3 r4 r5 r6 r7]. ring.
Qed.

Lemma pairwise_sum_fuel_foldl (fuel : nat) (l : list Qc) :
  pairwise_sum_fuel 0 Qcplus fuel l = foldl Qcplus 0 l.
Proof.
  revert l. induction fuel as [|fuel IH]; intros l; simpl;
    [apply block_sum_foldl|].
  destruct (length l <=? 128)%nat; [apply block_sum_foldl|].
  rewrite !IH.
  rewrite <-(foldl_Qcplus_shift (drop _ l) (foldl Qcplus 0 (take _ l))).
  by rewrite <-foldl_app, take_drop.
Qed.

Lemma sum_foldl (l : list Qc) : sum l = foldl Qcplus 0 l.
Proof.
  unfold sum, add_reduce, pairwise_sum.
  by rewrite pairwise_sum_fuel_foldl, Qcplus_0_l.
Qed.

Lemma kahan_foldl (l : list Qc) (acc : Qc) :
  foldl (kahan_step 0 Qcplus Qcminus (fun _ => false)) (acc, 0) l
  = (foldl Qcplus acc l, 0).
Proof.
  revert acc. induction l as [|x l IH]; intros acc; [done|].
  cbn [foldl]. unfold kahan_step at 2. cbn [fst snd].
  replace (acc + (x - 0) - acc - (x - 0)) with 0 by ring.
  replace (acc + (x - 0)) with (acc + x) by ring.
  apply IH.
Qed.

Lemma group_sum_sum (l : list Qc) : group_sum l = sum l.
Proof. unfold group_sum, kahan_sum. by rewrite kahan_foldl, sum_foldl. Qed.





(** ** Premiums are non-negative *)




(** ** The year summary *)









(** The end-to-end scenario in binary64: every value is exact, and the
    result is that of the exact functions. *)
Example end_to_end_scenario_in_doubles :
  exists (df_detail : DataFrame Doubles.DetailRow)
         (df_year : DataFrame Doubles.YearRow),
    Doubles.calc_total Doubles.A001_rates [Doubles.A001_item] "M" 16 18 true
    = inr (Doubles.A001_total, df_detail, df_year) /\
    Doubles.d_premium <$> rows df_detail = Doubles.A001_premiums /\
    Doubles.y_premium <$> rows df_year = Doubles.A001_premiums /\
    Doubles.y_cumulative <$> rows df_year = Doubles.A001_cumulative.
Proof.
  eexists _, _. split; [vm_compute; reflexivity|].
  repeat split; vm_compute; reflexivity.
Qed.

Local Close Scope Qc_scope.

(** ** Failures of the loop body *)


Lemma NoDup_constant_singleton {A} (l : list A) (u : A) :
  NoDup l -> l ≠ [] -> Forall (fun x => x = u) l -> l = [u].
Proof.
  intros Hnd Hne Hall. destruct l as [|x [|y l]]; [done| |].
  - apply Forall_cons in Hall as [-> _]. done.
  - apply Forall_cons in Hall as [-> Hall].
    apply Forall_cons in Hall as [-> _].
    apply NoDup_cons in Hnd as [Hnin _]. destruct Hnin. left.
Qed.

(** One distinct unit among the matched rows, in the words of the table. *)
Lemma units_of_single (sub : list RateRecord) (unit : string) :
  sub ≠ [] -> Forall (fun r => r_unit r = unit) sub -> units_of sub = [unit].
Proof.
  intros Hne Hall. unfold units_of. apply NoDup_constant_singleton.
  - apply NoDup_unique.
  - intros Hnil. apply unique_nil_inv, fmap_nil_inv in Hnil. done.
  - apply Forall_forall. intros u Hu.
    rewrite elem_of_unique in Hu.
    apply list_elem_of_fmap in Hu as (r & -> & Hr).
    rewrite Forall_forall in Hall. by apply Hall.
Qed.

Lemma units_of_single_inv (sub : list RateRecord) (unit : string) :
  units_of sub = [unit] -> sub ≠ [] /\ Forall (fun r => r_unit r = unit) sub.
Proof.
  intros Hu. split.
  - intros ->. discriminate.
  - apply Forall_forall. intros r Hr.
    assert (r_unit r ∈ units_of sub) as Hin.
    { unfold units_of. rewrite elem_of_unique. by apply list_elem_of_fmap_2. }
    rewrite Hu in Hin. by apply list_elem_of_singleton in Hin.
Qed.

Lemma elem_of_units_of (sub : list RateRecord) (u : string) :
  u ∈ units_of sub <-> exists r, r ∈ sub /\ r_unit r = u.
Proof.
  unfold units_of. rewrite elem_of_unique, list_elem_of_fmap.
  split; intros (r & H1 & H2); exists r; auto.
Qed.


Lemma item_rows_inconsistent (rates_df : DataFrame RateRecord) (sex : string)
    (ages : list Z) (item : Item) :
  has_rate_columns rates_df ->
  (1 < length (units_of (sub_of (rows rates_df) (i_product_code item) sex)))%nat ->
  item_rows rates_df sex ages item
  = raise (InconsistentUnitError (i_product_code item)
             (units_of (sub_of (rows rates_df) (i_product_code item) sex))).
Proof.
  intros Hcols Hlen.
  destruct (has_rate_columns_select _ Hcols) as (Hc & Hs & Hu & _).
  unfold item_rows. rewrite Hc, Hs. simpl.
  case_bool_decide as Hsub; [rewrite Hsub in Hlen; simpl in Hlen; lia|].
  rewrite Hu. simpl. case_bool_decide; [done|lia].
Qed.


(** The first item whose body raises decides the outcome of [calc_total]. *)
Lemma calc_total_first_failure (rates_df : DataFrame RateRecord)
    (pre post : list Item) (item : Item) (sex : string)
    (start_age end_age : Z) (include_end : bool) (e : error) :
  start_age <= end_age ->
  Forall (fun it => succeeds (item_rows rates_df sex
                                (target_ages start_age end_age include_end) it)) pre ->
  item_rows rates_df sex (target_ages start_age end_age include_end) item = inl e ->
  calc_total rates_df (pre ++ item :: post) sex start_age end_age include_end
  = inl e.
Proof.
  intros Hle Hpre Hitem. unfold calc_total.
  apply Z.ltb_ge in Hle. rewrite Hle, item_loop_traverse.
  by rewrite (traverse_first_failure _ pre post item e).
Qed.



(** The table of C003 stops at age 40: a window from 16 to 50 reports all of
    41 to 50. *)
Example missing_ages_41_to_50 :
  calc_total C003_rates [C003_item] "M" 16 50 true
  = raise (MissingAgeCoverageError "C003" [41; 42; 43; 44; 45; 46; 47; 48; 49; 50]).
Proof. compute_done. Qed.

Lemma two_distinct_elements_length {A} (l : list A) (x y : A) :
  x ∈ l -> y ∈ l -> x ≠ y -> (1 < length l)%nat.
Proof.
  intros Hx Hy Hne. destruct l as [|a [|b l]]; simpl; [| |lia].
  - by apply elem_of_nil in Hx.
  - apply list_elem_of_singleton in Hx, Hy. congruence.
Qed.

(** C7: when the rows matched for an item carry two different units (the
    earlier items having passed), [calc_total] raises the inconsistent-unit
    error for that product with the list of the distinct units of the
    matched rows; and whenever [calc_total] succeeds, the matched rows of
    each item are present and all carry one and the same unit. *)
Theorem inconsistent_units_rejected (rates_df : DataFrame RateRecord)
    (pre post : list Item) (item : Item) (sex : string)
    (start_age end_age : Z) (include_end : bool) :
  start_age <= end_age ->
  has_rate_columns rates_df ->
  Forall (fun it => succeeds (item_rows rates_df sex
                                (target_ages start_age end_age include_end) it)) pre ->
  ((exists r1 r2 : RateRecord,
      r1 ∈ sub_of (rows rates_df) (i_product_code item) sex /\
      r2 ∈ sub_of (rows rates_df) (i_product_code item) sex /\
      r_unit r1 ≠ r_unit r2) ->
   exists units : list string,
     calc_total rates_df (pre ++ item :: post) sex start_age end_age include_end
     = raise (InconsistentUnitError (i_product_code item) units) /\
     (forall u : string,
        u ∈ units <->
        exists r, r ∈ sub_of (rows rates_df) (i_product_code item) sex /\ r_unit r = u) /\
     NoDup units /\ (1 < length units)%nat) /\
  (forall res,
     calc_total rates_df (pre ++ item :: post) sex start_age end_age include_end
     = inr res ->
     exists unit : string,
       sub_of (rows rates_df) (i_product_code item) sex ≠ [] /\
       Forall (fun r => r_unit r = unit)
              (sub_of (rows rates_df) (i_product_code item) sex)).
Proof.
  intros Hle Hcols Hpre. split.
  - intros (r1 & r2 & Hr1 & Hr2 & Hne).
    exists (units_of (sub_of (rows rates_df) (i_product_code item) sex)).
    assert (1 < length (units_of (sub_of (rows rates_df) (i_product_code item) sex)))%nat
      as Hlen.
    { apply (two_distinct_elements_length _ (r_unit r1) (r_unit r2)); [| |done];
        apply elem_of_units_of; eauto. }
    split; [|split; [|split]].
    + apply calc_total_first_failure; [done..|].
      by apply item_rows_inconsistent.
    + apply elem_of_units_of.
    + apply NoDup_unique.
    + done.
  - intros [[total d] y] Hok.
    apply calc_total_ok in Hok as (rss & _ & Hrss & _).
    apply Forall2_app_inv_l in Hrss as (k1 & k2 & _ & Hk2 & _).
    apply Forall2_cons_inv_l in Hk2 as (rs & k2' & Hrs & _ & _).
    apply item_rows_ok in Hrs as (unit & m & _ & Hunits & _).
    exists unit. by apply units_of_single_inv.
Qed.

Lemma inconsistent_units_rejected_witness :
  exists units : list string,
    calc_total X_rates ([] ++ X_item :: []) "M" 16 17 true
    = raise (InconsistentUnitError (i_product_code X_item) units) /\
    (forall u : string,
       u ∈ units <->
       exists r, r ∈ sub_of (rows X_rates) (i_product_code X_item) "M" /\ r_unit r = u) /\
    NoDup units /\ (1 < length units)%nat.
Proof.
  apply (inconsistent_units_rejected X_rates [] [] X_item "M" 16 17 true).
  - lia.
  - compute_done.
  - constructor.
  - exists (mkRate "X" "Mixed" "per_10k" 16 "M" (Qc_of_Z 5) "X.csv"),
           (mkRate "X" "Mixed" "per_1k" 17 "M" (Qc_of_Z 5) "X.csv").
    split; [compute_done|]. split; [compute_done|]. discriminate.
Defined.

(** Product X with a per_10k row and a per_1k row: the error names both. *)
Example inconsistent_units_X :
  calc_total X_rates [X_item] "M" 16 17 true
  = raise (InconsistentUnitError "X" ["per_10k"; "per_1k"]).
Proof. compute_done. Qed.

(** ** Duplicate rows for one (product_code, sex, age) *)

Lemma filter_age_sub_of (all_rows : list RateRecord) (code sex : string) (a : Z) :
  filter (fun r => r_age r = a) (sub_of all_rows code sex)
  = filter (same_key code sex a) all_rows.
Proof.
  unfold sub_of. rewrite list_filter_filter. apply list_filter_iff.
  unfold same_key. intros r. tauto.
Qed.

(** C9 (as the code has it): on success every detail row is priced with
    the rate of the last row of the table for its (product_code, sex, age):
    that rate is the row's unit rate, and the premium is that rate times the
    item's multiplier.  Duplicate rows raise nothing and are not averaged; a
    later row overrides an earlier one. *)
Theorem duplicate_rows_last_wins (rates_df : DataFrame RateRecord)
    (items : list Item) (sex : string) (start_age end_age : Z)
    (include_end : bool) (total : Qc) (df_detail : DataFrame DetailRow)
    (df_year : DataFrame YearRow) :
  calc_total rates_df items sex start_age end_age include_end
  = inr (total, df_detail, df_year) ->
  forall row : DetailRow,
    row ∈ rows df_detail ->
    exists (item : Item) (rec : RateRecord) (m : Qc),
      item ∈ items /\
      d_code row = i_product_code item /\
      last_match rates_df (d_code row) sex (d_age row) = Some rec /\
      d_rate row = r_rate rec /\
      multiplier_of (r_unit rec) (i_amount item) (i_qty item) = inr m /\
      d_premium row = (r_rate rec * m)%Qc.
Proof.
  intros H row Hrow.
  apply calc_total_ok in H as (rss & _ & Hrss & _ & -> & _). simpl in Hrow.
  apply list_elem_of_join in Hrow as (rs & Hrow & Hrs).
  apply list_elem_of_lookup in Hrs as [i Hi].
  destruct (Forall2_lookup_r _ _ _ _ _ Hrss Hi) as (item & Hitem & Hrows).
  apply item_rows_ok in Hrows as (unit & m & _ & Hunits & Hm & Hmiss & ->).
  apply list_elem_of_fmap in Hrow as (a & -> & Ha).
  destruct (missing_nil_lookup _ _ a Hmiss Ha) as [v Hv].
  pose proof Hv as Hlast. rewrite rate_map_of_lookup in Hlast.
  apply fmap_Some in Hlast as (rec & Hlast & ->).
  exists item, rec, m. simpl. rewrite Hv. simpl.
  assert (r_unit rec = unit) as ->.
  { apply units_of_single_inv in Hunits as [_ Hall].
    rewrite Forall_forall in Hall. apply Hall.
    apply last_Some_elem_of, list_elem_of_filter in Hlast. tauto. }
  repeat split; [| |done].
  - eapply list_elem_of_lookup_2. exact Hitem.
  - unfold last_match. by rewrite <-filter_age_sub_of.
Qed.

Lemma duplicate_rows_last_wins_witness :
  exists (item : Item) (rec : RateRecord) (m : Qc),
    item ∈ [D004_item] /\
    "D004" = i_product_code item /\
    last_match D004_rates "D004" "M" 30 = Some rec /\
    Qc_of_Z 20 = r_rate rec /\
    multiplier_of (r_unit rec) (i_amount item) (i_qty item) = inr m /\
    Qc_of_Z 20 = (r_rate rec * m)%Qc.
Proof.
  apply (duplicate_rows_last_wins D004_rates [D004_item] "M" 30 30 true
           (Qc_of_Z 20)
           (mkDataFrame detail_columns
              [mkDetail 30 "D004" "Dup" "per_1" 1 1 (Qc_of_Z 20) (Qc_of_Z 20)])
           (mkDataFrame year_columns [mkYear 30 (Qc_of_Z 20) (Qc_of_Z 20)])
           ltac:(compute_done)
           (mkDetail 30 "D004" "Dup" "per_1" 1 1 (Qc_of_Z 20) (Qc_of_Z 20))).
  simpl. left.
Defined.

(** C9 (as stated) fails: with two rows for (D004, M, 30), of rates 10 and
    then 20, [calc_total] raises nothing and prices age 30 at 20, which is
    not the rate of the first matching row. *)
Lemma duplicate_rows_not_first_match :
  exists (total : Qc) (df_detail : DataFrame DetailRow) (df_year : DataFrame YearRow),
    calc_total D004_rates [D004_item] "M" 30 30 true
    = inr (total, df_detail, df_year) /\
    exists (row : DetailRow) (rec : RateRecord),
      row ∈ rows df_detail /\
      first_match D004_rates (d_code row) "M" (d_age row) = Some rec /\
      r_rate rec = Qc_of_Z 10 /\
      d_rate row = Qc_of_Z 20 /\
      d_rate row ≠ r_rate rec.
Proof.
  exists (Qc_of_Z 20),
         (mkDataFrame detail_columns
            [mkDetail 30 "D004" "Dup" "per_1" 1 1 (Qc_of_Z 20) (Qc_of_Z 20)]),
         (mkDataFrame year_columns [mkYear 30 (Qc_of_Z 20) (Qc_of_Z 20)]).
  split; [compute_done|].
  exists (mkDetail 30 "D004" "Dup" "per_1" 1 1 (Qc_of_Z 20) (Qc_of_Z 20)),
         (mkRate "D004" "Dup" "per_1" 30 "M" (Qc_of_Z 10) "D004a.csv").
  split; [left|]. repeat split; try reflexivity. discriminate.
Qed.

(** * Further properties of [calc_total] *)

(** ** When [calc_total] returns *)

Lemma Forall2_item_rows_ages (rates_df : DataFrame RateRecord) (sex : string)
    (ages : list Z) (items : list Item) (rss : list (list DetailRow)) :
  Forall2 (fun item rs => item_rows rates_df sex ages item = inr rs) items rss ->
  Forall (fun rs => d_age <$> rs = ages) rss.
Proof.
  induction 1 as [|item rs items rss Hrs _ IH]; constructor; [|done].
  apply item_rows_ok in Hrs as (unit & m & _ & _ & _ & _ & ->).
  apply detail_row_ages.
Qed.

Lemma length_mjoin_constant {A} (ls : list (list A)) (n : nat) :
  Forall (fun l => length l = n) ls -> length (mjoin ls) = (length ls * n)%nat.
Proof.
  induction 1 as [|l ls Hl _ IH]; simpl; [done|].
  rewrite length_app, Hl, IH. done.
Qed.

(** A call that returns had a non-empty basket and a non-empty age
    sequence in a valid window; with an empty basket and a valid window the
    call raises [KeyError] on the age column, whatever the table is. *)
Theorem calc_total_returns_only_with_rows (rates_df : DataFrame RateRecord)
    (items : list Item) (sex : string) (start_age end_age : Z)
    (include_end : bool) :
  ((exists res,
      calc_total rates_df items sex start_age end_age include_end = inr res) ->
   items ≠ [] /\
   (start_age < end_age \/ (start_age = end_age /\ include_end = true))) /\
  (start_age <= end_age ->
   calc_total rates_df [] sex start_age end_age include_end
   = raise (KeyError "年齡")).
Proof.
  split.
  - intros [[[total d] y] H].
    apply calc_total_ok in H as (rss & Hle & Hrss & Hne & _).
    split.
    + intros ->. apply Forall2_nil_inv_l in Hrss as ->. done.
    + destruct (decide (start_age < end_age)) as [?|Hnlt]; [by left|right].
      assert (start_age = end_age) as -> by lia. split; [done|].
      destruct include_end; [done|]. exfalso. apply Hne.
      rewrite target_ages_degenerate in Hrss. clear -Hrss.
      induction Hrss as [|item rs items rss Hrs _ IH]; [done|].
      apply item_rows_no_ages in Hrs as ->. done.
  - intros Hle. unfold calc_total.
    apply Z.ltb_ge in Hle. by rewrite Hle.
Qed.

Lemma calc_total_returns_only_with_rows_witness :
  [A001_item] ≠ [] /\ (16 < 18 \/ (16 = 18 /\ true = true)).
Proof.
  apply (calc_total_returns_only_with_rows A001_rates [A001_item] "M" 16 18 true).
  eexists. vm_compute. reflexivity.
Defined.

(** On success the year summary has one row per target age, in the order
    of the age sequence, and the detail frame has one row per item and
    target age. *)
Theorem one_row_per_age_and_item (rates_df : DataFrame RateRecord)
    (items : list Item) (sex : string) (start_age end_age : Z)
    (include_end : bool) (total : Qc) (df_detail : DataFrame DetailRow)
    (df_year : DataFrame YearRow) :
  calc_total rates_df items sex start_age end_age include_end
  = inr (total, df_detail, df_year) ->
  y_age <$> rows df_year = target_ages start_age end_age include_end /\
  length (rows df_detail)
  = (length items * length (target_ages start_age end_age include_end))%nat.
Proof.
  intros H. apply calc_total_ok in H as (rss & _ & Hrss & Hne & -> & -> & _).
  simpl. pose proof (Forall2_item_rows_ages _ _ _ _ _ Hrss) as Hages.
  split.
  - rewrite year_rows_age.
    destruct (year_sum_ages (mjoin rss)) as [Hsorted Helem].
    apply (StronglySorted_unique_strong Z.lt);
      [intros; lia | done | apply target_ages_sorted |].
    apply NoDup_Permutation.
    + clear -Hsorted. induction Hsorted as [|x l _ IH Hx]; constructor; [|done].
      intros Hin. rewrite Forall_forall in Hx. specialize (Hx x Hin). lia.
    + pose proof (target_ages_sorted start_age end_age include_end) as Hs.
      clear -Hs. induction Hs as [|x l _ IH Hx]; constructor; [|done].
      intros Hin. rewrite Forall_forall in Hx. specialize (Hx x Hin). lia.
    + intros a. rewrite Helem, list_elem_of_fmap. split.
      * intros (r & -> & Hr). apply list_elem_of_join in Hr as (rs & Hr & Hrs).
        rewrite Forall_forall in Hages. rewrite <-(Hages rs Hrs).
        by apply list_elem_of_fmap_2.
      * intros Ha. destruct rss as [|rs rss]; [done|].
        apply Forall_cons in Hages as [Hrs _].
        rewrite <-Hrs in Ha. apply list_elem_of_fmap in Ha as (r & -> & Hr).
        exists r. split; [done|]. simpl. apply elem_of_app. by left.
  - rewrite (length_mjoin_constant rss
               (length (target_ages start_age end_age include_end))).
    + by rewrite (Forall2_length _ _ _ Hrss).
    + eapply Forall_impl; [exact Hages|]. intros rs <-. by rewrite length_fmap.
Qed.

Lemma one_row_per_age_and_item_witness :
  y_age <$> [mkYear 16 (Qc_of_Z 500) (Qc_of_Z 500);
             mkYear 17 (Qc_of_Z 500) (Qc_of_Z 1000);
             mkYear 18 (Qc_of_Z 500) (Qc_of_Z 1500)]
  = target_ages 16 18 true.
Proof.
  apply (one_row_per_age_and_item A001_rates [A001_item] "M" 16 18 true
           (Qc_of_Z 1500)
           (mkDataFrame detail_columns
              [mkDetail 16 "A001" "TestLife" "per_10k" 1000000 1 (Qc_of_Z 5) (Qc_of_Z 500);
               mkDetail 17 "A001" "TestLife" "per_10k" 1000000 1 (Qc_of_Z 5) (Qc_of_Z 500);
               mkDetail 18 "A001" "TestLife" "per_10k" 1000000 1 (Qc_of_Z 5) (Qc_of_Z 500)])
           (mkDataFrame year_columns
              [mkYear 16 (Qc_of_Z 500) (Qc_of_Z 500);
               mkYear 17 (Qc_of_Z 500) (Qc_of_Z 1000);
               mkYear 18 (Qc_of_Z 500) (Qc_of_Z 1500)])).
  compute_done.
Defined.

(** ** The other failures of the loop body *)

Lemma item_rows_not_found (rates_df : DataFrame RateRecord) (sex : string)
    (ages : list Z) (item : Item) :
  "product_code" ∈ columns rates_df -> "sex" ∈ columns rates_df ->
  sub_of (rows rates_df) (i_product_code item) sex = [] ->
  item_rows rates_df sex ages item
  = raise (ProductNotFoundError (i_product_code item) sex).
Proof.
  intros Hc Hs Hsub. unfold item_rows.
  rewrite (select_in _ _ Hc), (select_in _ _ Hs). simpl.
  by rewrite bool_decide_eq_true_2.
Qed.

Lemma sub_of_nil (all_rows : list RateRecord) (code sex : string) :
  sub_of all_rows code sex = [] <->
  forall r, r ∈ all_rows -> ~ (r_product_code r = code /\ r_sex r = sex).
Proof.
  split.
  - intros Hnil r Hr Hkey.
    assert (r ∈ sub_of all_rows code sex) as Hin
      by (apply elem_of_sub_of; tauto).
    rewrite Hnil in Hin. by apply elem_of_nil in Hin.
  - intros Hno. destruct (sub_of all_rows code sex) as [|r l] eqn:Hsub; [done|].
    assert (r ∈ sub_of all_rows code sex) as Hin by (rewrite Hsub; left).
    apply elem_of_sub_of in Hin as (Hr & Hkey). destruct (Hno r Hr Hkey).
Qed.

(** When no row of the table has the product code of an item together
    with the requested sex (the earlier items having passed), [calc_total]
    raises the product-not-found error naming that code and that sex: a
    product present only for the other sex is reported the same way. *)
Theorem product_without_rows_rejected (rates_df : DataFrame RateRecord)
    (pre post : list Item) (item : Item) (sex : string)
    (start_age end_age : Z) (include_end : bool) :
  start_age <= end_age ->
  "product_code" ∈ columns rates_df -> "sex" ∈ columns rates_df ->
  Forall (fun it => succeeds (item_rows rates_df sex
                                (target_ages start_age end_age include_end) it)) pre ->
  (forall r, r ∈ rows rates_df ->
             ~ (r_product_code r = i_product_code item /\ r_sex r = sex)) ->
  calc_total rates_df (pre ++ item :: post) sex start_age end_age include_end
  = raise (ProductNotFoundError (i_product_code item) sex).
Proof.
  intros Hle Hc Hs Hpre Hno.
  apply calc_total_first_failure; [done..|].
  apply item_rows_not_found; [done..|]. by apply sub_of_nil.
Qed.

Lemma product_without_rows_rejected_witness :
  calc_total A001_rates ([] ++ A001_item :: []) "F" 16 18 true
  = raise (ProductNotFoundError (i_product_code A001_item) "F").
Proof.
  apply (product_without_rows_rejected A001_rates [] [] A001_item "F" 16 18 true).
  - lia.
  - compute_done.
  - compute_done.
  - constructor.
  - assert (Forall (fun r => ~ (r_product_code r = i_product_code A001_item
                                /\ r_sex r = "F")) (rows A001_rates)) as Hall
      by compute_done.
    rewrite Forall_forall in Hall. exact Hall.
Defined.

Lemma multiplier_of_unsupported (unit : string) (amt : Qc) (qty : Z) :
  unit ∉ ["per_10k"; "per_1k"; "per_1"] ->
  multiplier_of unit amt qty = raise (UnsupportedUnitError unit).
Proof.
  intros Hu. unfold multiplier_of, unit_to_multiplier.
  destruct (String.eqb_spec unit "per_10k") as [->|_];
    [destruct Hu; by left|].
  destruct (String.eqb_spec unit "per_1k") as [->|_];
    [destruct Hu; right; by left|].
  destruct (String.eqb_spec unit "per_1") as [->|_];
    [destruct Hu; right; right; by left|].
  done.
Qed.

(** When the rows matched for an item all carry one unit that is not
    per_10k, per_1k or per_1 (the earlier items having passed),
    [calc_total] raises the unsupported-unit error naming that unit; this
    happens before the age coverage is looked at, so it is raised whether
    or not ages are missing. *)
Theorem unsupported_unit_rejected (rates_df : DataFrame RateRecord)
    (pre post : list Item) (item : Item) (sex : string)
    (start_age end_age : Z) (include_end : bool) (unit : string) :
  start_age <= end_age ->
  has_rate_columns rates_df ->
  Forall (fun it => succeeds (item_rows rates_df sex
                                (target_ages start_age end_age include_end) it)) pre ->
  sub_of (rows rates_df) (i_product_code item) sex ≠ [] ->
  Forall (fun r => r_unit r = unit)
         (sub_of (rows rates_df) (i_product_code item) sex) ->
  unit ∉ ["per_10k"; "per_1k"; "per_1"] ->
  calc_total rates_df (pre ++ item :: post) sex start_age end_age include_end
  = raise (UnsupportedUnitError unit).
Proof.
  intros Hle Hcols Hpre Hsub Hall Hunit.
  apply calc_total_first_failure; [done..|].
  destruct (has_rate_columns_select _ Hcols) as (Hc & Hs & Hu & _).
  unfold item_rows. rewrite Hc, Hs. simpl.
  rewrite bool_decide_eq_false_2 by done. rewrite Hu. simpl.
  rewrite (units_of_single _ unit) by done. simpl.
  by rewrite multiplier_of_unsupported.
Qed.

Lemma unsupported_unit_rejected_witness :
  calc_total Z001_rates ([] ++ Z001_item :: []) "M" 16 50 true
  = raise (UnsupportedUnitError "per_100").
Proof.
  apply (unsupported_unit_rejected Z001_rates [] [] Z001_item "M" 16 50 true
           "per_100").
  - lia.
  - compute_done.
  - constructor.
  - compute_done.
  - compute_done.
  - compute_done.
Defined.

(** ** The table rows that matter *)

Lemma sub_of_filter (P : RateRecord -> Prop) `{!forall r, Decision (P r)}
    (all_rows : list RateRecord) (code sex : string) :
  (forall r, r ∈ all_rows -> r_product_code r = code -> r_sex r = sex -> P r) ->
  sub_of (filter P all_rows) code sex = sub_of all_rows code sex.
Proof.
  intros HP. unfold sub_of. rewrite list_filter_filter.
  induction all_rows as [|r l IH]; [done|].
  rewrite !filter_cons.
  assert (forall r', r' ∈ l -> r_product_code r' = code -> r_sex r' = sex -> P r')
    as HP' by (intros r' Hr'; apply HP; by right).
  rewrite (IH HP').
  destruct (decide (r_product_code r = code /\ r_sex r = sex)) as [[Hc Hs]|Hn].
  - rewrite decide_True; [done|]. split; [done|]. apply HP; [left|done..].
  - rewrite decide_False; [done|]. tauto.
Qed.

(** The outcome of [calc_total] depends only on the rows of the table
    whose product code is in the basket and whose sex is the requested
    one: removing any other rows (another sex, a product not requested)
    changes nothing, neither a result nor an error. *)
Theorem other_rows_are_ignored (P : RateRecord -> Prop)
    `{!forall r, Decision (P r)} (rates_df : DataFrame RateRecord)
    (items : list Item) (sex : string) (start_age end_age : Z)
    (include_end : bool) :
  (forall r item, r ∈ rows rates_df -> item ∈ items ->
                  r_product_code r = i_product_code item -> r_sex r = sex -> P r) ->
  calc_total (mkDataFrame (columns rates_df) (filter P (rows rates_df)))
             items sex start_age end_age include_end
  = calc_total rates_df items sex start_age end_age include_end.
Proof.
  intros HP. unfold calc_total. destruct (end_age <? start_age); [done|].
  rewrite !item_loop_traverse.
  assert (traverse (item_rows (mkDataFrame (columns rates_df)
                                 (filter P (rows rates_df))) sex
                      (target_ages start_age end_age include_end)) items
          = traverse (item_rows rates_df sex
                        (target_ages start_age end_age include_end)) items) as ->;
    [|done].
  induction items as [|item items IH]; [done|]. simpl.
  assert (item_rows (mkDataFrame (columns rates_df) (filter P (rows rates_df)))
            sex (target_ages start_age end_age include_end) item
          = item_rows rates_df sex
              (target_ages start_age end_age include_end) item) as ->.
  { unfold item_rows, select, set_index. simpl.
    repeat (case_bool_decide; simpl; try done);
      rewrite ?sub_of_filter in *
        by (intros r Hr Hc Hs; apply (HP r item); [done|left|done..]);
      try done. }
  rewrite IH; [done|].
  intros r item' Hr Hitem'. apply HP; [done|by right].
Qed.

Lemma other_rows_are_ignored_witness :
  calc_total (mkDataFrame (columns two_rates)
                (filter (fun r => r_product_code r = "A001") (rows two_rates)))
             [A001_item] "M" 16 18 true
  = calc_total two_rates [A001_item] "M" 16 18 true.
Proof.
  apply (other_rows_are_ignored (fun r => r_product_code r = "A001") two_rates
           [A001_item] "M" 16 18 true).
  intros r item _ Hitem Hcode _.
  apply list_elem_of_singleton in Hitem. subst item. exact Hcode.
Defined.

(** ** Aggregation *)

Local Open Scope Qc_scope.

Lemma foldl_Qcplus_acc (l : list Qc) (acc : Qc) :
  foldl Qcplus acc l = acc + sum l.
Proof. rewrite sum_foldl. apply foldl_Qcplus_shift. Qed.

Lemma sum_cons (x : Qc) (l : list Qc) : sum (x :: l) = x + sum l.
Proof.
  rewrite (sum_foldl (x :: l)). simpl.
  by rewrite foldl_Qcplus_acc, Qcplus_0_l.
Qed.

Lemma sum_nil : sum [] = 0.
Proof. by rewrite sum_foldl. Qed.

Lemma sum_Permutation (l k : list Qc) : l ≡ₚ k -> sum l = sum k.
Proof.
  induction 1 as [|x l k _ IH|x y l|l k m _ IH1 _ IH2].
  - done.
  - by rewrite !sum_cons, IH.
  - rewrite !sum_cons, !Qcplus_assoc. by rewrite (Qcplus_comm x y).
  - by rewrite IH1.
Qed.

(** Splitting a sum of premiums by a key and its complement. *)
Lemma sum_premium_split (k : Z) (keys : list Z) (rs : list DetailRow) :
  k ∉ keys ->
  sum (d_premium <$> filter (fun r => d_age r ∈ k :: keys) rs)
  = sum (d_premium <$> filter (fun r => d_age r = k) rs)
    + sum (d_premium <$> filter (fun r => d_age r ∈ keys) rs).
Proof.
  intros Hk. induction rs as [|r rs IH]; [by rewrite Qcplus_0_l|].
  rewrite !filter_cons.
  destruct (decide (d_age r = k)) as [Heq|Hne].
  - rewrite decide_True by (rewrite Heq; left).
    rewrite decide_False by (rewrite Heq; done).
    rewrite !fmap_cons, !sum_cons, IH. by rewrite Qcplus_assoc.
  - destruct (decide (d_age r ∈ keys)) as [Hin|Hnin].
    + rewrite decide_True by by right.
      rewrite !fmap_cons, !sum_cons, IH.
      rewrite !Qcplus_assoc. by rewrite (Qcplus_comm (d_premium r)).
    + rewrite decide_False; [done|].
      rewrite elem_of_cons. tauto.
Qed.

Lemma sum_over_keys (keys : list Z) (rs : list DetailRow) :
  NoDup keys ->
  sum ((fun k => sum (d_premium <$> filter (fun r => d_age r = k) rs)) <$> keys)
  = sum (d_premium <$> filter (fun r => d_age r ∈ keys) rs).
Proof.
  induction 1 as [|k keys Hk _ IH].
  - simpl. induction rs as [|r rs IHrs]; [done|].
    rewrite filter_cons, decide_False; [done|]. apply not_elem_of_nil.
  - rewrite fmap_cons, sum_cons, IH. by rewrite sum_premium_split.
Qed.

Lemma filter_all {A} (P : A -> Prop) `{!forall x, Decision (P x)} (l : list A) :
  Forall P l -> filter P l = l.
Proof.
  induction 1 as [|x l Hx _ IH]; [done|].
  by rewrite filter_cons, decide_True, IH.
Qed.

Lemma sum_group_sums (rs : list DetailRow) :
  sum (sort_values_age (group_sums rs)).*2 = sum (d_premium <$> rs).
Proof.
  unfold sort_values_age.
  rewrite (sum_Permutation _ ((group_sums rs).*2))
    by (apply fmap_Permutation, merge_sort_Permutation).
  unfold group_sums. rewrite <-list_fmap_compose.
  rewrite (list_fmap_ext _
             (fun k => sum (d_premium <$> filter (fun r => d_age r = k) rs)))
    by (intros; apply group_sum_sum).
  rewrite (sum_Permutation _
             ((fun k => sum (d_premium <$> filter (fun r => d_age r = k) rs))
                <$> unique (d_age <$> rs)))
    by (apply fmap_Permutation, merge_sort_Permutation).
  rewrite sum_over_keys by apply NoDup_unique.
  rewrite filter_all; [done|].
  apply Forall_forall. intros r Hr. rewrite elem_of_unique.
  by apply list_elem_of_fmap_2.
Qed.

(** On success the returned total is the sum of the premiums of all the
    detail rows: grouping by age and summing the groups loses and adds
    nothing. *)
Theorem total_is_sum_of_detail_premiums (rates_df : DataFrame RateRecord)
    (items : list Item) (sex : string) (start_age end_age : Z)
    (include_end : bool) (total : Qc) (df_detail : DataFrame DetailRow)
    (df_year : DataFrame YearRow) :
  calc_total rates_df items sex start_age end_age include_end
  = inr (total, df_detail, df_year) ->
  total = sum (d_premium <$> rows df_detail).
Proof.
  intros H. apply calc_total_ok in H as (rss & _ & _ & _ & -> & _ & ->).
  simpl. apply sum_group_sums.
Qed.

Lemma total_is_sum_of_detail_premiums_witness :
  Qc_of_Z 1500
  = sum (d_premium <$>
           [mkDetail 16 "A001" "TestLife" "per_10k" 1000000 1 (Qc_of_Z 5) (Qc_of_Z 500);
            mkDetail 17 "A001" "TestLife" "per_10k" 1000000 1 (Qc_of_Z 5) (Qc_of_Z 500);
            mkDetail 18 "A001" "TestLife" "per_10k" 1000000 1 (Qc_of_Z 5) (Qc_of_Z 500)]).
Proof.
  apply (total_is_sum_of_detail_premiums A001_rates [A001_item] "M" 16 18 true
           (Qc_of_Z 1500)
           (mkDataFrame detail_columns
              [mkDetail 16 "A001" "TestLife" "per_10k" 1000000 1 (Qc_of_Z 5) (Qc_of_Z 500);
               mkDetail 17 "A001" "TestLife" "per_10k" 1000000 1 (Qc_of_Z 5) (Qc_of_Z 500);
               mkDetail 18 "A001" "TestLife" "per_10k" 1000000 1 (Qc_of_Z 5) (Qc_of_Z 500)])
           (mkDataFrame year_columns
              [mkYear 16 (Qc_of_Z 500) (Qc_of_Z 500);
               mkYear 17 (Qc_of_Z 500) (Qc_of_Z 1000);
               mkYear 18 (Qc_of_Z 500) (Qc_of_Z 1500)])).
  compute_done.
Defined.

(** ** The order of the basket *)

Lemma group_sums_Permutation (rs rs' : list DetailRow) :
  rs ≡ₚ rs' -> group_sums rs = group_sums rs'.
Proof.
  intros Hperm. unfold group_sums.
  assert (merge_sort Z.le (unique (d_age <$> rs))
          = merge_sort Z.le (unique (d_age <$> rs'))) as ->.
  { apply (StronglySorted_unique Z.le);
      [apply (StronglySorted_merge_sort _)..|].
    rewrite !merge_sort_Permutation.
    apply NoDup_Permutation; [apply NoDup_unique..|].
    intros a. rewrite !elem_of_unique. by rewrite Hperm. }
  apply list_fmap_ext. intros _ k _. f_equal.
  rewrite !group_sum_sum. apply sum_Permutation. by rewrite Hperm.
Qed.

(** The rows an item contributes, as a total function of the item. *)
Lemma Forall2_item_rows_fmap (rates_df : DataFrame RateRecord) (sex : string)
    (ages : list Z) (items : list Item) (rss : list (list DetailRow)) :
  Forall2 (fun item rs => item_rows rates_df sex ages item = inr rs) items rss ->
  rss = (fun item => match item_rows rates_df sex ages item with
                     | inr rs => rs
                     | inl _ => []
                     end) <$> items.
Proof.
  induction 1 as [|item rs items rss Hrs _ IH]; [done|].
  rewrite fmap_cons, Hrs. by f_equal.
Qed.

Lemma traverse_Permutation_ok {A B} (f : A -> result B) (l l' : list A)
    (ys : list B) :
  l ≡ₚ l' -> traverse f l = inr ys -> exists ys', traverse f l' = inr ys'.
Proof.
  intros Hperm Hl.
  assert (Forall (fun x => succeeds (f x)) l) as Hall.
  { apply traverse_ok_Forall2 in Hl. clear Hperm.
    induction Hl; constructor; [by eexists|done]. }
  rewrite Hperm in Hall. clear -Hall.
  induction Hall as [|x l' [y Hy] _ [ys' IH]]; [by eexists|].
  simpl. rewrite Hy, IH. by eexists.
Qed.

Lemma DataFrame_of_dicts_nonempty (rs : list DetailRow) :
  rs ≠ [] ->
  DataFrame_of_dicts rs = mkDataFrame detail_columns rs /\
  groupby_age_sum (mkDataFrame detail_columns rs) = ok (group_sums rs).
Proof. intros Hne. by destruct rs. Qed.

(** Reordering the basket changes neither the total nor the year
    summary: a call that returns for a basket returns for each of its
    reorderings with the same total and the same year frame, and with the
    same detail rows in another order. *)
Theorem basket_order_is_irrelevant (rates_df : DataFrame RateRecord)
    (items items' : list Item) (sex : string) (start_age end_age : Z)
    (include_end : bool) (total : Qc) (df_detail : DataFrame DetailRow)
    (df_year : DataFrame YearRow) :
  items ≡ₚ items' ->
  calc_total rates_df items sex start_age end_age include_end
  = inr (total, df_detail, df_year) ->
  exists df_detail' : DataFrame DetailRow,
    calc_total rates_df items' sex start_age end_age include_end
    = inr (total, df_detail', df_year) /\
    rows df_detail' ≡ₚ rows df_detail.
Proof.
  intros Hperm H.
  apply calc_total_ok in H as (rss & Hle & Hrss & Hne & -> & -> & ->).
  set (ages := target_ages start_age end_age include_end) in *.
  pose proof Hrss as Htr. apply traverse_ok_Forall2 in Htr.
  destruct (traverse_Permutation_ok _ _ _ _ Hperm Htr) as [rss' Htr'].
  pose proof Htr' as Hrss'. apply traverse_ok_Forall2 in Hrss'.
  assert (mjoin rss' ≡ₚ mjoin rss) as Hrows.
  { rewrite (Forall2_item_rows_fmap _ _ _ _ _ Hrss),
            (Forall2_item_rows_fmap _ _ _ _ _ Hrss').
    by rewrite Hperm. }
  exists (mkDataFrame detail_columns (mjoin rss')). split; [|done].
  unfold calc_total. apply Z.ltb_ge in Hle. rewrite Hle.
  rewrite item_loop_traverse. fold ages. rewrite Htr'. simpl.
  assert (mjoin rss' ≠ []) as Hne'.
  { intros Hnil. rewrite Hnil in Hrows. by apply Permutation_nil_l in Hrows. }
  destruct (DataFrame_of_dicts_nonempty _ Hne') as [-> ->]. simpl.
  by rewrite (group_sums_Permutation _ _ Hrows).
Qed.

Lemma basket_order_is_irrelevant_witness :
  exists df_detail' : DataFrame DetailRow,
    calc_total two_rates [B002_item; A001_item] "M" 16 17 true
    = inr (Qc_of_Z 1400, df_detail',
           mkDataFrame year_columns
             [mkYear 16 (Qc_of_Z 700) (Qc_of_Z 700);
              mkYear 17 (Qc_of_Z 700) (Qc_of_Z 1400)]) /\
    rows df_detail'
    ≡ₚ [mkDetail 16 "A001" "TestLife" "per_10k" 1000000 1 (Qc_of_Z 5) (Qc_of_Z 500);
        mkDetail 17 "A001" "TestLife" "per_10k" 1000000 1 (Qc_of_Z 5) (Qc_of_Z 500);
        mkDetail 16 "B002" "Rider" "per_1k" 100000 1 (Qc_of_Z 2) (Qc_of_Z 200);
        mkDetail 17 "B002" "Rider" "per_1k" 100000 1 (Qc_of_Z 2) (Qc_of_Z 200)].
Proof.
  apply (basket_order_is_irrelevant two_rates [A001_item; B002_item]
           [B002_item; A001_item] "M" 16 17 true (Qc_of_Z 1400)
           (mkDataFrame detail_columns
              [mkDetail 16 "A001" "TestLife" "per_10k" 1000000 1 (Qc_of_Z 5) (Qc_of_Z 500);
               mkDetail 17 "A001" "TestLife" "per_10k" 1000000 1 (Qc_of_Z 5) (Qc_of_Z 500);
               mkDetail 16 "B002" "Rider" "per_1k" 100000 1 (Qc_of_Z 2) (Qc_of_Z 200);
               mkDetail 17 "B002" "Rider" "per_1k" 100000 1 (Qc_of_Z 2) (Qc_of_Z 200)])
           (mkDataFrame year_columns
              [mkYear 16 (Qc_of_Z 700) (Qc_of_Z 700);
               mkYear 17 (Qc_of_Z 700) (Qc_of_Z 1400)])).
  - apply perm_swap.
  - compute_done.
Defined.

Local Close Scope Qc_scope.

(** ** Sufficient conditions for a result *)




(** On the frame without columns that [load_rates] returns when there is
    no file, any call with a valid window and a non-empty basket raises
    [KeyError] on the product code column. *)
Theorem calc_total_on_empty_repository (item : Item) (items : list Item)
    (sex : string) (start_age end_age : Z) (include_end : bool) :
  start_age <= end_age ->
  calc_total empty_frame (item :: items) sex start_age end_age include_end
  = raise (KeyError "product_code").
Proof.
  intros Hle. unfold calc_total. apply Z.ltb_ge in Hle. by rewrite Hle.
Qed.

Lemma calc_total_on_empty_repository_witness :
  calc_total empty_frame (A001_item :: []) "M" 16 18 true
  = raise (KeyError "product_code").
Proof.
  apply (calc_total_on_empty_repository A001_item [] "M" 16 18 true). lia.
Defined.

(** ** The only [KeyError] on a table with its columns *)

Lemma traverse_failure {A B} (f : A -> result B) (l : list A) (e : error) :
  traverse f l = inl e -> exists x, x ∈ l /\ f x = inl e.
Proof.
  induction l as [|x l IH]; simpl; [discriminate|].
  destruct (f x) as [e'|y] eqn:Hx; simpl.
  - intros [= ->]. exists x. split; [left|done].
  - destruct (traverse f l) as [e'|ys]; simpl; [|discriminate].
    intros [= ->]. destruct (IH eq_refl) as (x' & Hin & Hx').
    exists x'. split; [by right|done].
Qed.

Lemma item_rows_no_KeyError (rates_df : DataFrame RateRecord) (sex : string)
    (ages : list Z) (item : Item) (key : string) :
  has_rate_columns rates_df ->
  item_rows rates_df sex ages item ≠ inl (KeyError key).
Proof.
  intros Hcols.
  destruct (has_rate_columns_select _ Hcols) as (Hc & Hs & Hu & Ha & Hr).
  unfold item_rows. rewrite Hc, Hs. simpl.
  case_bool_decide; [discriminate|]. rewrite Hu. simpl.
  case_bool_decide; [discriminate|].
  destruct (multiplier_of _ _ _) as [e|m] eqn:Hm; simpl.
  - unfold multiplier_of, unit_to_multiplier in Hm.
    repeat case_match; simplify_eq/=. discriminate.
  - rewrite Ha, Hr. simpl. case_bool_decide; discriminate.
Qed.

Lemma calc_total_KeyError (rates_df : DataFrame RateRecord) (items : list Item)
    (sex : string) (start_age end_age : Z) (include_end : bool) (key : string) :
  has_rate_columns rates_df ->
  calc_total rates_df items sex start_age end_age include_end
  = raise (KeyError key) ->
  key = "年齡".
Proof.
  intros Hcols. unfold calc_total.
  destruct (end_age <? start_age); [discriminate|].
  rewrite item_loop_traverse.
  destruct (traverse _ items) as [e|rss] eqn:Htr; simpl.
  - intros [= ->]. apply traverse_failure in Htr as (item & _ & Hitem).
    by apply item_rows_no_KeyError in Hitem.
  - destruct (mjoin rss) as [|r rs]; simpl; [by intros [= <-]|discriminate].
Qed.

(** * Properties of [load_rates] *)

Lemma traverse_option_ok {A B} (g : A -> option B) (e : error) (l : list A)
    (ys : list B) :
  traverse (fun x => match g x with Some y => ok y | None => raise e end) l = inr ys
  <-> Forall2 (fun x y => g x = Some y) l ys.
Proof.
  rewrite traverse_ok_Forall2. split; intros H.
  - eapply Forall2_impl; [exact H|]. intros x y Hxy. simpl in Hxy.
    destruct (g x); [by injection Hxy as ->|discriminate].
  - eapply Forall2_impl; [exact H|]. intros x y Hxy. simpl. by rewrite Hxy.
Qed.

Lemma traverse_option_fail {A B} (g : A -> option B) (e : error) (l : list A) :
  (exists x, x ∈ l /\ g x = None) ->
  traverse (fun x => match g x with Some y => ok y | None => raise e end) l = inl e.
Proof.
  intros (x & Hx & Hg). induction l as [|a l IH]; [by apply elem_of_nil in Hx|].
  simpl. destruct (g a) as [b|] eqn:Ha; [|done]. simpl.
  apply elem_of_cons in Hx as [->|Hx]; [congruence|].
  by rewrite (IH Hx).
Qed.

Lemma traverse_total {A B} (g : A -> option B) (e : error) (l : list A) :
  Forall (fun x => is_Some (g x)) l ->
  exists ys, traverse (fun x => match g x with Some y => ok y | None => raise e end) l
             = inr ys.
Proof.
  induction 1 as [|x l [y Hy] _ [ys IH]]; [by exists []|].
  exists (y :: ys). simpl. by rewrite Hy, IH.
Qed.

Section LoadRatesProperties.

Variable cell : Type.
Variable nan : cell.
Variable astype_int : cell -> option Z.
Variable astype_str : cell -> string.
Variable to_numeric : cell -> option Qc.
Variable upper strip : string -> string.
Variable isdir : string -> bool.
Variable glob_csv : string -> list string.
Variable basename : string -> string.
Variable read_csv : string -> encoding -> read_outcome cell.

Local Abbreviation load :=
  (load_rates cell nan astype_int astype_str to_numeric upper strip
              isdir glob_csv basename read_csv).
Local Abbreviation read := (read_file cell basename read_csv).
Local Abbreviation try_enc := (try_encodings cell basename read_csv).
Local Abbreviation at_ := (cell_at cell nan).

(** ** Decoding a file *)

Lemma try_encodings_first (f : string) (earlier later : list encoding)
    (enc : encoding) (df : RawFrame cell) :
  Forall (fun e => read_csv f e = UnicodeDecodeError cell) earlier ->
  read_csv f enc = Parsed cell df ->
  try_enc f (earlier ++ enc :: later) = ok (Some df).
Proof.
  intros Hearlier Henc. induction Hearlier as [|e earlier He _ IH]; simpl.
  - by rewrite Henc.
  - by rewrite He.
Qed.

Lemma try_encodings_none (f : string) (encs : list encoding) :
  Forall (fun e => read_csv f e = UnicodeDecodeError cell) encs ->
  try_enc f encs = ok None.
Proof. induction 1 as [|e encs He _ IH]; simpl; [done|by rewrite He]. Qed.

Lemma try_encodings_Some (f : string) (encs : list encoding) (df : RawFrame cell) :
  try_enc f encs = inr (Some df) ->
  exists earlier enc later,
    encs = earlier ++ enc :: later /\
    Forall (fun e => read_csv f e = UnicodeDecodeError cell) earlier /\
    read_csv f enc = Parsed cell df.
Proof.
  induction encs as [|e encs IH]; simpl; [discriminate|].
  destruct (read_csv f e) as [df'| |] eqn:He.
  - intros [= ->]. exists [], e, encs. by repeat split.
  - intros H. destruct (IH H) as (earlier & enc & later & -> & Hearlier & Henc).
    exists (e :: earlier), enc, later. split; [done|]. split; [by constructor|done].
  - discriminate.
Qed.

(** The encodings are tried in the order utf-8, utf-8-sig, cp950, big5 and
    the frame of the first one that does not raise [UnicodeDecodeError] is
    kept, tagged with the base name of the file: a later encoding is not
    consulted.  The rows are those of that frame, each with the tag; the
    columns are those of that frame, with [source_file] added at the end
    unless the file has a column of that name, which then keeps its place. *)
Theorem first_decodable_encoding_wins (f : string)
    (earlier later : list encoding) (enc : encoding) (df : RawFrame cell) :
  encodings = earlier ++ enc :: later ->
  Forall (fun e => read_csv f e = UnicodeDecodeError cell) earlier ->
  read_csv f enc = Parsed cell df ->
  exists cols : list string,
    read f = ok (cols, (fun r => mkTagged cell r (basename f)) <$> raw_rows cell df) /\
    ("source_file" ∈ raw_columns cell df -> cols = raw_columns cell df) /\
    ("source_file" ∉ raw_columns cell df ->
     cols = raw_columns cell df ++ ["source_file"]).
Proof.
  intros Hencs Hearlier Henc. exists (with_source_file (raw_columns cell df)).
  split; [|split].
  - unfold read_file. rewrite Hencs.
    by rewrite (try_encodings_first f earlier later enc df).
  - intros Hin. unfold with_source_file. by rewrite bool_decide_eq_true_2.
  - intros Hnin. unfold with_source_file. by rewrite bool_decide_eq_false_2.
Qed.

(** A file that raises [UnicodeDecodeError] under each of the four
    encodings makes [load_rates] raise the encoding error with the base name
    of that file, the files globbed before it having been read. *)
Theorem undecodable_file_rejected (rates_dir f : string) (pre post : list string) :
  isdir rates_dir = true ->
  glob_csv rates_dir = pre ++ f :: post ->
  Forall (fun g => succeeds (read g)) pre ->
  Forall (fun e => read_csv f e = UnicodeDecodeError cell) encodings ->
  load rates_dir = raise (EncodingError (basename f)).
Proof.
  intros Hdir Hglob Hpre Hf. unfold load_rates. rewrite Hdir, Hglob. simpl.
  rewrite bool_decide_eq_false_2 by by destruct pre.
  rewrite (traverse_first_failure _ pre post f (EncodingError (basename f)));
    [done|done|].
  unfold read_file. by rewrite try_encodings_none.
Qed.

(** ** The schema *)

Lemma read_file_ok (f : string) (d : list string * list (TaggedRow cell)) :
  read f = inr d ->
  exists raw : RawFrame cell,
    try_enc f encodings = inr (Some raw) /\
    d = (with_source_file (raw_columns cell raw),
         (fun r => mkTagged cell r (basename f)) <$> raw_rows cell raw).
Proof.
  unfold read_file. intros H. apply bind_ok in H as ([raw|] & Htry & H);
    [|discriminate].
  injection H as <-. by exists raw.
Qed.

Lemma elem_of_concat_columns (dfs : list (list string * list (TaggedRow cell)))
    (c : string) :
  c ∈ (concat cell dfs).1 <-> exists d, d ∈ dfs /\ c ∈ d.1.
Proof.
  unfold concat. simpl. rewrite elem_of_unique, list_elem_of_join. split.
  - intros (cols & Hc & Hcols).
    apply list_elem_of_fmap in Hcols as (d & -> & Hd). eauto.
  - intros (d & Hd & Hc). exists d.1. split; [done|].
    by apply list_elem_of_fmap_2.
Qed.

(** When every file is read but some required column is in none of them,
    [load_rates] raises the schema error with the required columns that no
    file has, and only those. *)
Theorem missing_columns_rejected (rates_dir : string)
    (dfs : list (list string * list (TaggedRow cell))) :
  isdir rates_dir = true ->
  glob_csv rates_dir ≠ [] ->
  traverse read (glob_csv rates_dir) = inr dfs ->
  (exists c, c ∈ required /\ forall d, d ∈ dfs -> c ∉ d.1) ->
  exists missing_cols : list string,
    load rates_dir = raise (SchemaError missing_cols) /\
    forall c, c ∈ missing_cols <-> c ∈ required /\ forall d, d ∈ dfs -> c ∉ d.1.
Proof.
  intros Hdir Hglob Hread (c & Hc & Hnone).
  assert (forall c', c' ∈ filter (fun c => c ∉ (concat cell dfs).1) required
                     <-> c' ∈ required /\ forall d, d ∈ dfs -> c' ∉ d.1) as Hspec.
  { intros c'. rewrite list_elem_of_filter, elem_of_concat_columns.
    split.
    - intros [Hno Hreq]. split; [done|]. intros d Hd Hin. apply Hno. eauto.
    - intros [Hreq Hno]. split; [|done]. intros (d & Hd & Hin).
      by apply (Hno d Hd). }
  assert (filter (fun c => c ∉ (concat cell dfs).1) required ≠ []) as Hne.
  { intros Hnil.
    assert (c ∈ filter (fun c => c ∉ (concat cell dfs).1) required) as Hin
      by by apply Hspec.
    rewrite Hnil in Hin. by apply elem_of_nil in Hin. }
  exists (filter (fun c => c ∉ (concat cell dfs).1) required).
  split; [|done].
  unfold load_rates. rewrite Hdir. simpl.
  rewrite bool_decide_eq_false_2 by done. rewrite Hread. simpl.
  rewrite bool_decide_eq_true_2; [done|exact Hne].
Qed.

(** ** The loaded table *)

Lemma load_rates_ok (rates_dir : string) (df : DataFrame RateRecord) :
  isdir rates_dir = true ->
  glob_csv rates_dir ≠ [] ->
  load rates_dir = inr df ->
  exists (dfs : list (list string * list (TaggedRow cell)))
         (ages : list Z) (rates : list Qc),
    traverse read (glob_csv rates_dir) = inr dfs /\
    filter (fun c => c ∉ (concat cell dfs).1) required = [] /\
    Forall2 (fun t a => astype_int (at_ t "age") = Some a) (concat cell dfs).2 ages /\
    Forall2 (fun t q => to_numeric (at_ t "rate") = Some q) (concat cell dfs).2 rates /\
    df = mkDataFrame (concat cell dfs).1
           (zip_with (fun r ar =>
                        mkRate (strip (astype_str (at_ r "product_code")))
                               (strip (astype_str (at_ r "product_name")))
                               (strip (astype_str (at_ r "unit")))
                               ar.1
                               (strip (upper (astype_str (at_ r "sex"))))
                               ar.2
                               (source_file cell r))
                     (concat cell dfs).2 (zip ages rates)).
Proof.
  intros Hdir Hglob. unfold load_rates. rewrite Hdir. simpl.
  rewrite bool_decide_eq_false_2 by done. intros H.
  apply bind_ok in H as (dfs & Hread & H).
  case_bool_decide as Hmiss; [discriminate|].
  apply bind_ok in H as (ages & Hages & H).
  apply bind_ok in H as (rates & Hrates & [= <-]).
  apply traverse_option_ok in Hages, Hrates.
  exists dfs, ages, rates. repeat split; done.
Qed.

(** A table loaded from files has every column that [calc_total] selects,
    the product name and the source tag, so that [calc_total] on it never
    raises [KeyError] for a column of the rate table: whatever the basket and
    the window, the only [KeyError] it can raise is the one on the age
    column of a detail frame without rows. *)
Theorem loaded_table_has_rate_columns (rates_dir : string)
    (df : DataFrame RateRecord) :
  isdir rates_dir = true ->
  glob_csv rates_dir ≠ [] ->
  load rates_dir = inr df ->
  has_rate_columns df /\
  "product_name" ∈ columns df /\
  "source_file" ∈ columns df /\
  forall (items : list Item) (sex : string) (start_age end_age : Z)
         (include_end : bool) (key : string),
    calc_total df items sex start_age end_age include_end = raise (KeyError key) ->
    key = "年齡".
Proof.
  intros Hdir Hglob H.
  cut (has_rate_columns df /\ "product_name" ∈ columns df /\
       "source_file" ∈ columns df).
  { intros (Hcols & Hname & Hsrc). repeat split; try done.
    intros items sex start_age end_age include_end key.
    by apply calc_total_KeyError. }
  destruct (load_rates_ok _ _ Hdir Hglob H)
    as (dfs & ages & rates & Hread & Hmiss & _ & _ & ->). simpl.
  assert (forall c, c ∈ required -> c ∈ (concat cell dfs).1) as Hreq.
  { intros c Hc. destruct (decide (c ∈ (concat cell dfs).1)) as [|Hn]; [done|].
    assert (c ∈ filter (fun c => c ∉ (concat cell dfs).1) required) as Hin
      by by apply list_elem_of_filter.
    rewrite Hmiss in Hin. by apply elem_of_nil in Hin. }
  split; [|split].
  - unfold has_rate_columns. simpl.
    repeat (constructor; [apply Hreq; compute_done|]). constructor.
  - apply Hreq. compute_done.
  - apply elem_of_concat_columns.
    destruct (glob_csv rates_dir) as [|f files]; [done|].
    simpl in Hread. apply bind_ok in Hread as (d & Hd & Hread).
    apply bind_ok in Hread as (ds & _ & [= <-]).
    exists d. split; [left|].
    apply read_file_ok in Hd as (raw & _ & ->). simpl.
    unfold with_source_file. case_bool_decide; [done|].
    apply elem_of_app. right. left.
Qed.

(** A successful load keeps every row of every file, once and in the
    order of the files: each row of the table comes from the row of the
    same rank, carries the base name of its file, the age its cell casts to,
    the number its rate cell converts to, and the trimmed (for the sex, also
    upper-cased) text of the other cells. *)
Theorem loaded_table_keeps_every_row (rates_dir : string)
    (df : DataFrame RateRecord) :
  isdir rates_dir = true ->
  glob_csv rates_dir ≠ [] ->
  load rates_dir = inr df ->
  exists raws : list (RawFrame cell),
    Forall2 (fun f raw => try_enc f encodings = inr (Some raw))
            (glob_csv rates_dir) raws /\
    Forall2 (fun (fr : string * gmap string cell) (r : RateRecord) =>
               r_source_file r = basename fr.1 /\
               astype_int (default nan (fr.2 !! "age")) = Some (r_age r) /\
               to_numeric (default nan (fr.2 !! "rate")) = Some (r_rate r) /\
               r_sex r = strip (upper (astype_str (default nan (fr.2 !! "sex")))) /\
               r_unit r = strip (astype_str (default nan (fr.2 !! "unit"))) /\
               r_product_code r
               = strip (astype_str (default nan (fr.2 !! "product_code"))) /\
               r_product_name r
               = strip (astype_str (default nan (fr.2 !! "product_name"))))
            (mjoin (zip_with (fun f raw => (fun c => (f, c)) <$> raw_rows cell raw)
                             (glob_csv rates_dir) raws))
            (rows df).
Proof.
  intros Hdir Hglob H.
  destruct (load_rates_ok _ _ Hdir Hglob H)
    as (dfs & ages & rates & Hread & _ & Hages & Hrates & ->). cbn [rows].
  apply traverse_ok_Forall2 in Hread.
  assert (exists raws,
            Forall2 (fun f raw => try_enc f encodings = inr (Some raw))
                    (glob_csv rates_dir) raws /\
            mjoin dfs.*2
            = (fun fr => mkTagged cell fr.2 (basename fr.1))
                <$> mjoin (zip_with (fun f raw => (fun c => (f, c)) <$> raw_rows cell raw)
                                    (glob_csv rates_dir) raws))
    as (raws & Hraws & Hrows).
  { clear -Hread. induction Hread as [|f d files dfs Hd _ (raws & Hraws & IH)].
    - exists []. split; [constructor|done].
    - apply read_file_ok in Hd as (raw & Htry & ->).
      exists (raw :: raws). split; [by constructor|].
      csimpl. rewrite IH, fmap_app. f_equal.
      rewrite <-list_fmap_compose. done. }
  exists raws. split; [done|].
  assert ((concat cell dfs).2 = mjoin dfs.*2) as Hc by done.
  rewrite Hc, Hrows in Hages, Hrates |- *.
  set (frs := mjoin _) in *. clearbody frs. clear -Hages Hrates.
  rewrite Forall2_fmap_l in Hages, Hrates.
  revert rates Hrates.
  induction Hages as [|fr a frs ages Ha _ IH]; intros rates Hrates.
  - constructor.
  - apply Forall2_cons_inv_l in Hrates as (q & rates' & Hq & Hrates & ->).
    csimpl. constructor; [|by apply IH].
    simpl. unfold cell_at in Ha, Hq. simpl in Ha, Hq. by repeat split.
Qed.

(** A rate cell that does not convert to a number makes [load_rates] raise
    the data-type error (the files being read, the columns present and every
    age castable): the row is not dropped and the load does not go on. *)
Theorem non_numeric_rate_rejected (rates_dir : string)
    (dfs : list (list string * list (TaggedRow cell))) :
  isdir rates_dir = true ->
  glob_csv rates_dir ≠ [] ->
  traverse read (glob_csv rates_dir) = inr dfs ->
  Forall (fun c => exists d, d ∈ dfs /\ c ∈ d.1) required ->
  Forall (fun t => is_Some (astype_int (at_ t "age"))) (mjoin dfs.*2) ->
  (exists t, t ∈ mjoin dfs.*2 /\ to_numeric (at_ t "rate") = None) ->
  load rates_dir = raise DataTypeError.
Proof.
  intros Hdir Hglob Hread Hcols Hages Hbad.
  unfold load_rates. rewrite Hdir. simpl.
  rewrite bool_decide_eq_false_2 by done. rewrite Hread. simpl.
  rewrite bool_decide_eq_false_2.
  - destruct (traverse_total (fun t => astype_int (at_ t "age")) AgeCastError
                _ Hages) as [ages ->]. simpl.
    by rewrite (traverse_option_fail (fun t => to_numeric (at_ t "rate"))
                  DataTypeError).
  - intros Hne. apply Hne.
    destruct (filter _ required) as [|c l] eqn:Hf; [done|].
    assert (c ∈ filter (fun c => c ∉ (concat cell dfs).1) required) as Hin
      by (unfold concat; simpl; rewrite Hf; left).
    apply list_elem_of_filter in Hin as [Hno Hreq]. destruct Hno.
    apply elem_of_concat_columns.
    rewrite Forall_forall in Hcols. by apply Hcols.
Qed.

(** An age cell that does not cast to an integer makes [load_rates] raise
    (the files being read and the columns present), before any rate is
    looked at. *)
Theorem uncastable_age_rejected (rates_dir : string)
    (dfs : list (list string * list (TaggedRow cell))) :
  isdir rates_dir = true ->
  glob_csv rates_dir ≠ [] ->
  traverse read (glob_csv rates_dir) = inr dfs ->
  Forall (fun c => exists d, d ∈ dfs /\ c ∈ d.1) required ->
  (exists t, t ∈ mjoin dfs.*2 /\ astype_int (at_ t "age") = None) ->
  load rates_dir = raise AgeCastError.
Proof.
  intros Hdir Hglob Hread Hcols Hbad.
  unfold load_rates. rewrite Hdir. simpl.
  rewrite bool_decide_eq_false_2 by done. rewrite Hread. simpl.
  rewrite bool_decide_eq_false_2.
  - by rewrite (traverse_option_fail (fun t => astype_int (at_ t "age"))
                  AgeCastError).
  - intros Hne. apply Hne.
    destruct (filter _ required) as [|c l] eqn:Hf; [done|].
    assert (c ∈ filter (fun c => c ∉ (concat cell dfs).1) required) as Hin
      by (unfold concat; simpl; rewrite Hf; left).
    apply list_elem_of_filter in Hin as [Hno Hreq]. destruct Hno.
    apply elem_of_concat_columns.
    rewrite Forall_forall in Hcols. by apply Hcols.
Qed.

End LoadRatesProperties.

(** ** The theorems of [load_rates] on the concrete file system *)

Example demo_load_rates_table : demo_load_rates "rates" = ok demo_table.
Proof. compute_done. Qed.

Lemma first_decodable_encoding_wins_witness :
  exists cols : list string,
    demo_read_file "stamped/S.csv"
    = ok (cols,
          (fun r => mkTagged string r (demo_basename "stamped/S.csv"))
            <$> raw_rows string demo_stamped) /\
    ("source_file" ∈ raw_columns string demo_stamped ->
     cols = raw_columns string demo_stamped) /\
    ("source_file" ∉ raw_columns string demo_stamped ->
     cols = raw_columns string demo_stamped ++ ["source_file"]).
Proof.
  apply (first_decodable_encoding_wins string demo_basename demo_read_csv
           "stamped/S.csv" [utf_8] [cp950; big5] utf_8_sig demo_stamped).
  - reflexivity.
  - repeat constructor.
  - reflexivity.
Defined.

(** The file of [stamped]: read as utf-8-sig, its own [source_file] column
    stays first and its cells give way to the tag. *)
Example demo_load_rates_stamped :
  demo_load_rates "stamped"
  = ok (mkDataFrame ("source_file" :: required)
          [mkRate "S" "Stamped" "per_1" 16 "M" (Qc_of_Z 5) "S.csv"]).
Proof. compute_done. Qed.

Lemma undecodable_file_rejected_witness :
  demo_load_rates "broken" = raise (EncodingError (demo_basename "broken/X.csv")).
Proof.
  apply (undecodable_file_rejected string "nan" demo_astype_int (fun c => c)
           demo_to_numeric (fun s => s) (fun s => s)
           demo_isdir demo_glob_csv demo_basename demo_read_csv
           "broken" "broken/X.csv" [] []).
  - reflexivity.
  - reflexivity.
  - constructor.
  - repeat constructor.
Defined.

Lemma missing_columns_rejected_witness :
  exists missing_cols : list string,
    demo_load_rates "partial" = raise (SchemaError missing_cols) /\
    forall c, c ∈ missing_cols <->
              c ∈ required /\
              forall d, d ∈ [demo_tagged "partial/P.csv" demo_partial] -> c ∉ d.1.
Proof.
  apply (missing_columns_rejected string "nan" demo_astype_int (fun c => c)
           demo_to_numeric (fun s => s) (fun s => s)
           demo_isdir demo_glob_csv demo_basename demo_read_csv
           "partial" [demo_tagged "partial/P.csv" demo_partial]).
  - reflexivity.
  - discriminate.
  - compute_done.
  - exists "rate". split; [compute_done|].
    intros d Hd. apply list_elem_of_singleton in Hd. subst d. compute_done.
Defined.

Lemma loaded_table_has_rate_columns_witness :
  has_rate_columns demo_table /\
  "product_name" ∈ columns demo_table /\
  "source_file" ∈ columns demo_table /\
  forall (items : list Item) (sex : string) (start_age end_age : Z)
         (include_end : bool) (key : string),
    calc_total demo_table items sex start_age end_age include_end
    = raise (KeyError key) ->
    key = "年齡".
Proof.
  apply (loaded_table_has_rate_columns string "nan" demo_astype_int (fun c => c)
           demo_to_numeric (fun s => s) (fun s => s)
           demo_isdir demo_glob_csv demo_basename demo_read_csv
           "rates" demo_table).
  - reflexivity.
  - discriminate.
  - compute_done.
Defined.

Lemma loaded_table_keeps_every_row_witness :
  exists raws : list (RawFrame string),
    Forall2 (fun f raw =>
               try_encodings string demo_basename demo_read_csv f encodings
               = inr (Some raw))
            (demo_glob_csv "rates") raws /\
    Forall2 (fun (fr : string * gmap string string) (r : RateRecord) =>
               r_source_file r = demo_basename fr.1 /\
               demo_astype_int (default "nan" (fr.2 !! "age")) = Some (r_age r) /\
               demo_to_numeric (default "nan" (fr.2 !! "rate")) = Some (r_rate r) /\
               r_sex r = default "nan" (fr.2 !! "sex") /\
               r_unit r = default "nan" (fr.2 !! "unit") /\
               r_product_code r = default "nan" (fr.2 !! "product_code") /\
               r_product_name r = default "nan" (fr.2 !! "product_name"))
            (mjoin (zip_with (fun f raw => (fun c => (f, c)) <$> raw_rows string raw)
                             (demo_glob_csv "rates") raws))
            (rows demo_table).
Proof.
  apply (loaded_table_keeps_every_row string "nan" demo_astype_int (fun c => c)
           demo_to_numeric (fun s => s) (fun s => s)
           demo_isdir demo_glob_csv demo_basename demo_read_csv
           "rates" demo_table).
  - reflexivity.
  - discriminate.
  - compute_done.
Defined.

Lemma non_numeric_rate_rejected_witness :
  demo_load_rates "dirty" = raise DataTypeError.
Proof.
  apply (non_numeric_rate_rejected string "nan" demo_astype_int (fun c => c)
           demo_to_numeric (fun s => s) (fun s => s)
           demo_isdir demo_glob_csv demo_basename demo_read_csv
           "dirty" [demo_tagged "dirty/D.csv" demo_dirty]).
  - reflexivity.
  - discriminate.
  - compute_done.
  - apply Forall_forall. intros c Hc.
    exists (demo_tagged "dirty/D.csv" demo_dirty). split; [left|].
    revert c Hc. apply Forall_forall. compute_done.
  - compute_done.
  - exists (mkTagged string (demo_row "D" "Dirty" "per_1" "17" "M" "n/a") "D.csv").
    split; compute_done.
Defined.

Lemma uncastable_age_rejected_witness :
  demo_load_rates "odd" = raise AgeCastError.
Proof.
  apply (uncastable_age_rejected string "nan" demo_astype_int (fun c => c)
           demo_to_numeric (fun s => s) (fun s => s)
           demo_isdir demo_glob_csv demo_basename demo_read_csv
           "odd" [demo_tagged "odd/O.csv" demo_odd]).
  - reflexivity.
  - discriminate.
  - compute_done.
  - apply Forall_forall. intros c Hc.
    exists (demo_tagged "odd/O.csv" demo_odd). split; [left|].
    revert c Hc. apply Forall_forall. compute_done.
  - exists (mkTagged string (demo_row "O" "Odd" "per_1" "sixteen" "M" "5") "O.csv").
    split; compute_done.
Defined.

(** * The product list and the basket *)

Lemma strip_prefix_app (p r : string) : strip_prefix p (p ++ r)%string = Some r.
Proof.
  induction p as [|a p IH]; simpl; [by destruct r|].
  by rewrite Ascii.eqb_refl.
Qed.

Lemma strip_prefix_Some (p s r : string) :
  strip_prefix p s = Some r -> s = (p ++ r)%string.
Proof.
  revert s. induction p as [|a p IH]; intros s; simpl.
  - by intros [= ->].
  - destruct s as [|b s]; [discriminate|].
    destruct (Ascii.eqb_spec a b) as [->|]; [|discriminate].
    intros H. by rewrite (IH _ H).
Qed.

(** The separator cannot start inside a text and end beyond it: its first
    byte does not occur again in it. *)
Lemma bar_occurrence_inside (code name rest : string) :
  code ≠ EmptyString ->
  (code ++ bar ++ name)%string = (bar ++ rest)%string ->
  contains_bar code.
Proof.
  intros Hne Heq. unfold bar in *.
  destruct code as [|x [|y [|z code]]]; [done|..]; simpl in Heq.
  - injection Heq as -> Hx _. discriminate.
  - injection Heq as -> -> Hx _. discriminate.
  - injection Heq as -> -> -> _. by exists EmptyString, code.
Qed.

Lemma contains_bar_cons (c : ascii) (s : string) :
  contains_bar s -> contains_bar (String c s).
Proof. intros (l & r & ->). by exists (String c l), r. Qed.

Lemma split_once_label (code name : string) :
  ~ contains_bar code ->
  split_once bar (code ++ bar ++ name)%string = Some (code, name).
Proof.
  intros Hno. induction code as [|c code IH].
  - simpl (_ ++ _)%string. 
    change (split_once bar (bar ++ name)%string = Some (EmptyString, name)).
    destruct (bar ++ name)%string eqn:Hs; [discriminate|].
    rewrite <-Hs. unfold split_once. 
    rewrite Hs. fold split_once. rewrite <-Hs. by rewrite strip_prefix_app.
  - change (String c code ++ bar ++ name)%string
      with (String c (code ++ bar ++ name)%string).
    cbn [split_once].
    destruct (strip_prefix bar (String c (code ++ bar ++ name)%string)) as [rest|] eqn:Hp.
    + apply strip_prefix_Some in Hp. destruct Hno.
      by apply (bar_occurrence_inside (String c code) name rest).
    + rewrite IH; [done|]. intros Hc. apply Hno. by apply contains_bar_cons.
Qed.

Lemma string_app_assoc (a b c : string) :
  ((a ++ b) ++ c)%string = (a ++ b ++ c)%string.
Proof.
  induction a as [|x a IH]; [done|].
  change (String x ((a ++ b) ++ c)%string = String x (a ++ b ++ c)%string).
  by rewrite IH.
Qed.

Lemma products_ok (rates : DataFrame RateRecord) (ps : list (string * string)) :
  products rates = inr ps ->
  NoDup ps /\
  forall p, p ∈ ps <->
            exists r, r ∈ rows rates /\ p = (r_product_code r, r_product_name r).
Proof.
  unfold products. intros H.
  apply bind_ok in H as (rs & Hsel & H). apply select_ok in Hsel as [-> _].
  apply bind_ok in H as (? & _ & [= <-]).
  split.
  - rewrite merge_sort_Permutation. apply NoDup_unique.
  - intros p. rewrite merge_sort_Permutation, elem_of_unique, list_elem_of_fmap.
    split; intros (r & H1 & H2); exists r; auto.
Qed.

(** The select box offers each distinct (product code, product name) pair
    of the table exactly once, and nothing else. *)
Theorem each_product_offered_once (rates : DataFrame RateRecord)
    (ps : list (string * string)) :
  products rates = inr ps ->
  NoDup ps /\
  forall code name : string,
    (code, name) ∈ ps <->
    exists r, r ∈ rows rates /\ r_product_code r = code /\ r_product_name r = name.
Proof.
  intros H. apply products_ok in H as [Hnd Hin]. split; [done|].
  intros code name. rewrite Hin. split.
  - intros (r & Hr & [= -> ->]). eauto.
  - intros (r & Hr & <- & <-). eauto.
Qed.

Lemma each_product_offered_once_witness :
  NoDup [("A001", "TestLife"); ("B002", "Rider")] /\
  forall code name : string,
    (code, name) ∈ [("A001", "TestLife"); ("B002", "Rider")] <->
    exists r, r ∈ rows demo_table /\ r_product_code r = code /\ r_product_name r = name.
Proof.
  apply (each_product_offered_once demo_table
           [("A001", "TestLife"); ("B002", "Rider")]).
  compute_done.
Defined.

(** Picking an option and pressing the add button appends an item with
    the product code and the product name of a row of the table, the amount
    as a number and the quantity, when no product code of the table contains
    the separator: the label of an option splits back into the pair it was
    built from. *)
Theorem picked_option_adds_its_product (rates : DataFrame RateRecord)
    (options : list string) (items : list Item) (pick : string)
    (amount qty : Z) :
  Forall (fun r => ~ contains_bar (r_product_code r)) (rows rates) ->
  product_options rates = inr options ->
  pick ∈ options ->
  exists r : RateRecord,
    r ∈ rows rates /\
    pick = option_label (r_product_code r, r_product_name r) /\
    add_item items pick amount qty
    = Some (items ++ [mkItem (r_product_code r) (r_product_name r)
                             (Qc_of_Z amount) qty]).
Proof.
  intros Hcodes Hopts Hpick. unfold product_options in Hopts.
  apply bind_ok in Hopts as (ps & Hps & [= <-]).
  apply products_ok in Hps as [_ Hin].
  apply list_elem_of_fmap in Hpick as (p & -> & Hp).
  apply Hin in Hp as (r & Hr & ->).
  exists r. split; [done|]. split; [done|].
  unfold add_item, option_label. simpl.
  rewrite split_once_label; [done|].
  rewrite Forall_forall in Hcodes. by apply Hcodes.
Qed.

Lemma picked_option_adds_its_product_witness :
  exists r : RateRecord,
    r ∈ rows demo_table /\
    option_label ("B002", "Rider") = option_label (r_product_code r, r_product_name r) /\
    add_item [A001_item] (option_label ("B002", "Rider")) 100000 1
    = Some ([A001_item] ++ [mkItem (r_product_code r) (r_product_name r)
                                   (Qc_of_Z 100000) 1]).
Proof.
  apply (picked_option_adds_its_product demo_table
           [option_label ("A001", "TestLife"); option_label ("B002", "Rider")]
           [A001_item] (option_label ("B002", "Rider")) 100000 1).
  - repeat constructor; intros (l & r & Heq); simpl in Heq;
      repeat (destruct l as [|? l]; simpl in Heq; try discriminate).
  - compute_done.
  - compute_done.
Defined.

(** A product code that contains the separator does not survive the
    round trip: the item appended for its option carries the code cut at its
    first separator, and the rest of the code goes into the name. *)
Theorem code_with_separator_is_cut (items : list Item)
    (before after name : string) (amount qty : Z) :
  ~ contains_bar before ->
  add_item items (option_label ((before ++ bar ++ after)%string, name)) amount qty
  = Some (items ++ [mkItem before (after ++ bar ++ name)%string
                           (Qc_of_Z amount) qty]) /\
  before ≠ (before ++ bar ++ after)%string.
Proof.
  intros Hno. split.
  - unfold add_item, option_label. simpl.
    rewrite !string_app_assoc. by rewrite split_once_label.
  - intros Heq. apply Hno. by exists before, after.
Qed.

Lemma code_with_separator_is_cut_witness :
  add_item [] (option_label (("A" ++ bar ++ "1")%string, "Life")) 1000 1
  = Some ([] ++ [mkItem "A" ("1" ++ bar ++ "Life")%string (Qc_of_Z 1000) 1]) /\
  "A" ≠ ("A" ++ bar ++ "1")%string.
Proof.
  apply (code_with_separator_is_cut [] "A" "1" "Life" 1000 1).
  intros (l & r & Heq). simpl in Heq.
  repeat (destruct l as [|? l]; simpl in Heq; try discriminate).
Defined.
